(** * The 3D product viewer: model validation, complexity analysis,
      normalization and animation selection.

    A shallow embedding of the viewer logic of the catalog front end:
    - [ModelValidation]: utils/modelValidation.js,
    - [ProductViewer]: the viewer component (normalizeModel, handleModelLoad,
      handleScaleChange, handleAnimationChange),
    - [AnimationControls]: the step controls (handlePrevious, handleNext),
    - [AnimatedModel]: the load effect (center and fit) and the playback
      effect of components/AnimatedModel.js,
    - [SharedScene]: the scene object of a model, which the load effect
      writes and both components measure.

    JavaScript numbers are read as exact rationals ([Q]); counts are
    integers ([Z]).  [null] and [undefined] are [None].  React state is a
    record that every handler takes and returns.  What the rendering
    library and the platform compute ([Box3.setFromObject], [new URL]) is
    a section variable; [SharedScene] gives the measurement of a scene
    that the load effect has moved and scaled.  The [actions] of the
    animation hook are a plain object: a lookup by name also finds the
    members of [Object.prototype]. *)

From Stdlib Require Import Ascii String QArith Qround Qminmax.
From stdpp Require Import base list strings gmap.

Set Warnings "-register-all".

Local Open Scope string_scope.
Local Open Scope Z_scope.

(** ** JavaScript helpers *)

Module Js.

(** [String.prototype.toLowerCase], on the ASCII letters. *)
Definition lowerChar (c : ascii) : ascii :=
  let n := nat_of_ascii c in
  if ((65 <=? n) && (n <=? 90))%nat then ascii_of_nat (n + 32) else c.

Fixpoint toLowerCase (s : string) : string :=
  match s with
  | EmptyString => EmptyString
  | String c s' => String (lowerChar c) (toLowerCase s')
  end.

(** [s.startsWith(t)]. *)
Fixpoint startsWith (s t : string) : bool :=
  match t, s with
  | EmptyString, _ => true
  | String _ _, EmptyString => false
  | String b t', String a s' => if Ascii.eqb a b then startsWith s' t' else false
  end.

(** [s.includes(t)]: [t] occurs at some offset of [s]. *)
Fixpoint includes (s t : string) : bool :=
  if startsWith s t then true
  else match s with
       | EmptyString => false
       | String _ s' => includes s' t
       end.

(** Truthiness of a string: the empty string is falsy. *)
Definition truthy (s : string) : bool := negb (String.eqb s "").

(** [l[i]] for a number [i]: [undefined] out of range. *)
Definition nth {A} (l : list A) (i : Z) : option A :=
  if i <? 0 then None else l !! Z.to_nat i.

(** [l.indexOf(x)] where [x] may be [null]: the first index holding [x],
    or -1. *)
Fixpoint indexOfFrom (l : list string) (x : string) (i : Z) : Z :=
  match l with
  | [] => -1
  | y :: l' => if String.eqb y x then i else indexOfFrom l' x (i + 1)
  end.

Definition indexOf (l : list string) (x : option string) : Z :=
  match x with
  | None => -1
  | Some s => indexOfFrom l s 0
  end.

(** [l.includes(x)] on an array of strings. *)
Definition arrayIncludes (l : list string) (x : string) : bool :=
  existsb (String.eqb x) l.

(** [Math.max(a, b, c)]. *)
Definition max3 (a b c : Q) : Q := Qmax (Qmax a b) c.

(** [a > b] on numbers. *)
Definition gt (a b : Q) : bool := negb (Qle_bool a b).

End Js.

(** ** The scene graph handed over by the loader *)

Module Three.

Record BufferAttribute := { count : Z }.

Record Attributes := { position : option BufferAttribute }.

Record BufferGeometry := {
  index : option BufferAttribute;
  attributes : option Attributes
}.

Inductive Object3D :=
  mkObject3D (type : string) (geometry : option BufferGeometry)
             (children : option (list Object3D)).

Definition type (o : Object3D) : string :=
  match o with mkObject3D t _ _ => t end.
Definition geometry (o : Object3D) : option BufferGeometry :=
  match o with mkObject3D _ g _ => g end.
Definition children (o : Object3D) : option (list Object3D) :=
  match o with mkObject3D _ _ c => c end.

Record AnimationClip := { name : string; duration : Q }.

Record GLTF := {
  scene : option Object3D;
  animations : option (list AnimationClip)
}.

Record Vector3 := { x : Q; y : Q; z : Q }.

(** [Box3]: the library's empty box (corners at plus and minus infinity)
    is any box whose [max] lies below its [min] on some axis, which is
    what [isEmpty] tests. *)
Record Box3 := { min : Vector3; max : Vector3 }.

Definition isEmpty (b : Box3) : bool :=
  Js.gt (x (min b)) (x (max b)) || Js.gt (y (min b)) (y (max b))
  || Js.gt (z (min b)) (z (max b)).

Definition zero : Vector3 := {| x := 0; y := 0; z := 0 |}.

(** [box.getCenter(target)]: the origin for an empty box, else the
    midpoint of the corners. *)
Definition getCenter (b : Box3) : Vector3 :=
  if isEmpty b then zero
  else {| x := (x (min b) + x (max b)) * (1 # 2);
          y := (y (min b) + y (max b)) * (1 # 2);
          z := (z (min b) + z (max b)) * (1 # 2) |}%Q.

(** [box.getSize(target)]: zero for an empty box, else [max - min]. *)
Definition getSize (b : Box3) : Vector3 :=
  if isEmpty b then zero
  else {| x := x (max b) - x (min b);
          y := y (max b) - y (min b);
          z := z (max b) - z (min b) |}%Q.

End Three.

(** ** utils/modelValidation.js *)

Module ModelValidation.
Import Three.

(** A URL argument as the caller may pass it. *)
Inductive UrlArg :=
| UrlNull
| UrlString (s : string)
| UrlOther (truthy : bool).

Record UrlValidation := {
  isValid : bool;
  error : option string;
  type : string
}.

Definition supportedExtensions : list string := [".glb"; ".gltf"].

Definition getModelType (url : string) : string :=
  if negb (Js.truthy url) then "unknown"
  else
    let lowerUrl := Js.toLowerCase url in
    if Js.includes lowerUrl ".glb" then "glb"
    else if Js.includes lowerUrl ".gltf" then "gltf"
    else "unknown".

Section ValidateModelUrl.

(** [new URL(url)] of the platform: [true] when it does not throw. *)
Variable URL_parses : string -> bool.

Definition validateModelUrl (url : UrlArg) : UrlValidation :=
  match url with
  | UrlNull | UrlOther false | UrlString "" =>
      {| isValid := false; error := Some "Model URL is required";
         type := "missing_url" |}
  | UrlOther true =>
      {| isValid := false; error := Some "Model URL must be a string";
         type := "invalid_type" |}
  | UrlString url =>
      let hasValidExtension :=
        existsb (fun ext => Js.includes (Js.toLowerCase url) ext)
                supportedExtensions in
      if negb hasValidExtension then
        {| isValid := false;
           error := Some "Model must be one of these formats: .glb, .gltf";
           type := "unsupported_format" |}
      else if negb (URL_parses url) then
        {| isValid := false; error := Some "Invalid URL format";
           type := "invalid_url" |}
      else
        {| isValid := true; error := None; type := getModelType url |}
  end.

End ValidateModelUrl.

Record ModelCheck := {
  mc_isValid : bool;
  mc_error : option string;
  mc_type : option string;
  mc_meshCount : option Z;
  mc_hasAnimations : option bool;
  mc_animationCount : option Z
}.

Definition invalid (msg ty : string) : ModelCheck :=
  {| mc_isValid := false; mc_error := Some msg; mc_type := Some ty;
     mc_meshCount := None; mc_hasAnimations := None;
     mc_animationCount := None |}.

(** [countMeshes]: one for a node of type Mesh, plus the counts of the
    children, added one after the other. *)
Fixpoint countMeshes (object3D : Object3D) : Z :=
  match object3D with
  | mkObject3D ty _ ch =>
      let count := 0 in
      let count := if String.eqb ty "Mesh" then count + 1 else count in
      match ch with
      | Some cs => fold_left (fun count child => count + countMeshes child) cs count
      | None => count
      end
  end.

Definition validateLoadedModel (model : option GLTF) : ModelCheck :=
  match model with
  | None => invalid "Model object is null or undefined" "null_model"
  | Some model =>
      match scene model with
      | None => invalid "Model missing scene object" "missing_scene"
      | Some sc =>
          match children sc with
          | None | Some [] =>
              invalid "Model scene has no children (empty model)" "empty_scene"
          | Some (_ :: _) =>
              {| mc_isValid := true; mc_error := None; mc_type := None;
                 mc_meshCount := Some (countMeshes sc);
                 mc_hasAnimations :=
                   match animations model with
                   | None => None
                   | Some a => Some (0 <? Z.of_nat (length a))
                   end;
                 mc_animationCount :=
                   Some match animations model with
                        | None => 0
                        | Some a => Z.of_nat (length a)
                        end |}
          end
      end
  end.

(** The triangles a node adds by itself: a third of the index count when
    the geometry is indexed, else a third of the position count. *)
Definition ownTriangles (ty : string) (geo : option BufferGeometry) : Q :=
  if String.eqb ty "Mesh" then
    match geo with
    | Some geometry =>
        match index geometry with
        | Some i => (0 + inject_Z (count i) / 3)%Q
        | None =>
            match attributes geometry with
            | Some a =>
                match position a with
                | Some p => (0 + inject_Z (count p) / 3)%Q
                | None => 0%Q
                end
            | None => 0%Q
            end
        end
    | None => 0%Q
    end
  else 0%Q.

(** [countTriangles]: the node's own share, plus the (already floored)
    counts of the children, floored on return. *)
Fixpoint countTriangles (object3D : Object3D) : Z :=
  match object3D with
  | mkObject3D ty geo ch =>
      let count := ownTriangles ty geo in
      let count :=
        match ch with
        | Some cs =>
            fold_left (fun count child => (count + inject_Z (countTriangles child))%Q)
                      cs count
        | None => count
        end in
      Qfloor count
  end.

Record Complexity := {
  complexity : string;
  meshCount : Z;
  triangleCount : Z;
  textureCount : option Z;
  animationCount : Z;
  hasAnimations : option bool
}.

Definition analyzeModelComplexity (model : option GLTF) : Complexity :=
  match model with
  | Some {| scene := Some sc; animations := anims |} =>
      let meshCount := countMeshes sc in
      let triangleCount := countTriangles sc in
      let animationCount :=
        match anims with Some a => Z.of_nat (length a) | None => 0 end in
      let complexity :=
        if (50000 <? triangleCount) || (50 <? meshCount) then "high"
        else if (10000 <? triangleCount) || (20 <? meshCount) then "medium"
        else "low" in
      {| complexity := complexity; meshCount := meshCount;
         triangleCount := triangleCount; textureCount := None;
         animationCount := animationCount;
         hasAnimations := Some (0 <? animationCount) |}
  | _ =>
      {| complexity := "unknown"; meshCount := 0; triangleCount := 0;
         textureCount := Some 0; animationCount := 0; hasAnimations := None |}
  end.

End ModelValidation.

(** ** The viewer component: normalization and default animation *)

Module ProductViewer.
Import Three.

Record ProductAnimations := {
  available : list string;
  defaultAnimation : option string;
  autoPlay : bool
}.

Record Product := {
  model3d : option string;
  animations : option ProductAnimations
}.

(** What [normalizeModel] returns (fields carry the prefix [nd_]). *)
Record NormalizationData := {
  nd_originalSize : Vector3;
  nd_boundingBox : Box3;
  nd_center : Vector3;
  nd_normalizedScale : Q;
  nd_centeredPosition : Vector3
}.

(** The [useState] cells of the component that the handlers below write. *)
Record State := {
  isLoading : bool;
  error : option string;
  modelInfo : option (ModelValidation.Complexity * NormalizationData);
  modelScale : Q;
  modelPosition : Vector3;
  normalizedScale : Q;
  availableAnimations : list string;
  currentAnimation : option string;
  playAnimations : bool
}.

(** The values the cells are created with. *)
Definition initialState : State :=
  {| isLoading := true; error := None; modelInfo := None;
     modelScale := 1; modelPosition := zero; normalizedScale := 1;
     availableAnimations := []; currentAnimation := None;
     playAnimations := false |}.

Definition setIsLoading (v : bool) (st : State) : State :=
  {| isLoading := v; error := error st; modelInfo := modelInfo st;
     modelScale := modelScale st; modelPosition := modelPosition st;
     normalizedScale := normalizedScale st;
     availableAnimations := availableAnimations st;
     currentAnimation := currentAnimation st;
     playAnimations := playAnimations st |}.

Definition setError (v : option string) (st : State) : State :=
  {| isLoading := isLoading st; error := v; modelInfo := modelInfo st;
     modelScale := modelScale st; modelPosition := modelPosition st;
     normalizedScale := normalizedScale st;
     availableAnimations := availableAnimations st;
     currentAnimation := currentAnimation st;
     playAnimations := playAnimations st |}.

Definition setModelInfo
    (v : option (ModelValidation.Complexity * NormalizationData))
    (st : State) : State :=
  {| isLoading := isLoading st; error := error st; modelInfo := v;
     modelScale := modelScale st; modelPosition := modelPosition st;
     normalizedScale := normalizedScale st;
     availableAnimations := availableAnimations st;
     currentAnimation := currentAnimation st;
     playAnimations := playAnimations st |}.

Definition setModelScale (v : Q) (st : State) : State :=
  {| isLoading := isLoading st; error := error st; modelInfo := modelInfo st;
     modelScale := v; modelPosition := modelPosition st;
     normalizedScale := normalizedScale st;
     availableAnimations := availableAnimations st;
     currentAnimation := currentAnimation st;
     playAnimations := playAnimations st |}.

Definition setModelPosition (v : Vector3) (st : State) : State :=
  {| isLoading := isLoading st; error := error st; modelInfo := modelInfo st;
     modelScale := modelScale st; modelPosition := v;
     normalizedScale := normalizedScale st;
     availableAnimations := availableAnimations st;
     currentAnimation := currentAnimation st;
     playAnimations := playAnimations st |}.

Definition setNormalizedScale (v : Q) (st : State) : State :=
  {| isLoading := isLoading st; error := error st; modelInfo := modelInfo st;
     modelScale := modelScale st; modelPosition := modelPosition st;
     normalizedScale := v;
     availableAnimations := availableAnimations st;
     currentAnimation := currentAnimation st;
     playAnimations := playAnimations st |}.

Definition setAvailableAnimations (v : list string) (st : State) : State :=
  {| isLoading := isLoading st; error := error st; modelInfo := modelInfo st;
     modelScale := modelScale st; modelPosition := modelPosition st;
     normalizedScale := normalizedScale st;
     availableAnimations := v;
     currentAnimation := currentAnimation st;
     playAnimations := playAnimations st |}.

Definition setCurrentAnimation (v : option string) (st : State) : State :=
  {| isLoading := isLoading st; error := error st; modelInfo := modelInfo st;
     modelScale := modelScale st; modelPosition := modelPosition st;
     normalizedScale := normalizedScale st;
     availableAnimations := availableAnimations st;
     currentAnimation := v;
     playAnimations := playAnimations st |}.

Definition setPlayAnimations (v : bool) (st : State) : State :=
  {| isLoading := isLoading st; error := error st; modelInfo := modelInfo st;
     modelScale := modelScale st; modelPosition := modelPosition st;
     normalizedScale := normalizedScale st;
     availableAnimations := availableAnimations st;
     currentAnimation := currentAnimation st;
     playAnimations := v |}.

Section Viewer.

(** [new THREE.Box3().setFromObject(scene)] of the rendering library: the
    box of the scene as it stands when the call is made, that is, after
    the load effect of the model component has moved and scaled it
    ([SharedScene.show] supplies that measurement). *)
Variable setFromObject : Object3D -> Box3.

(** The [targetSize] prop (3 unless the caller passes another). *)
Variable targetSize : Q.

(** The [product] prop. *)
Variable product : option Product.

(** [normalizeModel]: [None] is the exception the library raises when the
    model has no scene to measure. *)
Definition normalizeModel (gltf : GLTF) (st : State)
  : option (State * NormalizationData) :=
  match scene gltf with
  | None => None
  | Some scene =>
      let box := setFromObject scene in
      let center := getCenter box in
      let size := getSize box in
      let maxDimension := Js.max3 (x size) (y size) (z size) in
      let scale :=
        (if Js.gt maxDimension 0 then targetSize / maxDimension else 1)%Q in
      let centeredPosition :=
        {| x := - x center * scale;
           y := - y center * scale;
           z := - z center * scale |}%Q in
      let st := setNormalizedScale scale st in
      let st := setModelPosition centeredPosition st in
      let st := setModelScale scale st in
      Some (st, {| nd_originalSize := size; nd_boundingBox := box;
                   nd_center := center; nd_normalizedScale := scale;
                   nd_centeredPosition := centeredPosition |})
  end.

(** [product?.animations?.autoPlay], as a condition. *)
Definition autoPlayOf (product : option Product) : bool :=
  match product with
  | Some {| animations := Some a |} => autoPlay a
  | _ => false
  end.

(** [product.animations.defaultAnimation], read once auto-play holds. *)
Definition defaultAnimationOf (product : option Product) : option string :=
  match product with
  | Some {| animations := Some a |} => defaultAnimation a
  | _ => None
  end.

(** [name && animNames.includes(name)] for a name that may be missing. *)
Definition declaredAndLoaded (animNames : list string) (d : option string)
  : bool :=
  match d with
  | Some d => Js.truthy d && Js.arrayIncludes animNames d
  | None => false
  end.

(** [handleModelLoad]: the success callback of the model component. *)
Definition handleModelLoad (gltf : GLTF)
    (complexity : ModelValidation.Complexity) (st : State) : option State :=
  let st := setIsLoading false st in
  let st := setError None st in
  match normalizeModel gltf st with
  | None => None
  | Some (st, normalizationData) =>
      let st := setModelInfo (Some (complexity, normalizationData)) st in
      match Three.animations gltf with
      | Some (clip0 :: clips) =>
          let animNames :=
            filter (fun name => Is_true (Js.truthy name))
                   (map name (clip0 :: clips)) in
          let st := setAvailableAnimations animNames st in
          if autoPlayOf product then
            if declaredAndLoaded animNames (defaultAnimationOf product) then
              let st := setCurrentAnimation (defaultAnimationOf product) st in
              Some (setPlayAnimations true st)
            else if 0 <? Z.of_nat (length animNames) then
              let st := setCurrentAnimation (Js.nth animNames 0) st in
              Some (setPlayAnimations true st)
            else Some st
          else Some st
      | _ => Some (setAvailableAnimations [] st)
      end
  end.

(** [handleScaleChange]: the multiplier of the scale control, applied
    relative to the normalized scale. *)
Definition handleScaleChange (scale : Q) (st : State) : State :=
  setModelScale (normalizedScale st * scale)%Q st.

Definition handleAnimationToggle (enabled : bool) (st : State) : State :=
  setPlayAnimations enabled st.

(** [handleAnimationChange]: a requested clip becomes the selection, and
    playback is switched on when a name was given. *)
Definition handleAnimationChange (animationName : option string) (st : State)
  : State :=
  let st := setCurrentAnimation animationName st in
  match animationName with
  | Some n => if Js.truthy n then setPlayAnimations true st else st
  | None => st
  end.

End Viewer.

End ProductViewer.

(** ** The animation step controls *)

Module AnimationControls.

Record State := { selectedAnimation : option string }.

(** The callbacks of the parent that a handler invokes, in order. *)
Inductive Callback :=
| onAnimationChange (animationName : option string)
| onAnimationToggle (enabled : bool).

Definition handleAnimationSelect (animationName : option string) (st : State)
  : State * list Callback :=
  ({| selectedAnimation := animationName |}, [onAnimationChange animationName]).

Section Controls.

(** The [animations] prop: the clip names, in loader order. *)
Variable animations : list string.

Definition handlePrevious (st : State) : State * list Callback :=
  if Z.of_nat (length animations) =? 0 then (st, [])
  else
    let currentIndex := Js.indexOf animations (selectedAnimation st) in
    let prevIndex :=
      if currentIndex <=? 0 then Z.of_nat (length animations) - 1
      else currentIndex - 1 in
    let prevAnimation := Js.nth animations prevIndex in
    handleAnimationSelect prevAnimation st.

Definition handleNext (st : State) : State * list Callback :=
  if Z.of_nat (length animations) =? 0 then (st, [])
  else
    let currentIndex := Js.indexOf animations (selectedAnimation st) in
    let nextIndex :=
      if Z.of_nat (length animations) - 1 <=? currentIndex then 0
      else currentIndex + 1 in
    let nextAnimation := Js.nth animations nextIndex in
    handleAnimationSelect nextAnimation st.

End Controls.

End AnimationControls.

(** ** components/AnimatedModel.js *)

Module AnimatedModel.
Import Three.

(** The transform of [gltf.scene] that the load effect writes. *)
Record SceneTransform := {
  scene_position : Vector3;
  scene_scale : Vector3
}.

(** [v.copy(c).multiplyScalar(s)]. *)
Definition multiplyScalar (c : Vector3) (s : Q) : Vector3 :=
  {| x := x c * s; y := y c * s; z := z c * s |}%Q.

(** [v.setScalar(s)]. *)
Definition setScalar (s : Q) : Vector3 := {| x := s; y := s; z := s |}.

(** The center-and-fit step of the load effect, for the measured [box]:
    [scale] is the prop of the component. *)
Definition centerAndFit (enableBounds : bool) (scale : Q) (box : Box3)
    (t : SceneTransform) : SceneTransform :=
  if enableBounds then
    let center := getCenter box in
    let size := getSize box in
    let t := {| scene_position := multiplyScalar center (-1);
                scene_scale := scene_scale t |} in
    let maxDim := Js.max3 (x size) (y size) (z size) in
    if Js.gt maxDim 0 then
      let targetSize := (35 # 10)%Q in
      let scaleFactor := (targetSize / maxDim * scale)%Q in
      {| scene_position := scene_position t;
         scene_scale := setScalar scaleFactor |}
    else t
  else t.

(** What one run of the load effect ends in. *)
Inductive LoadOutcome :=
| Failed (error : option string)
| Loaded (t : SceneTransform) (complexityInfo : ModelValidation.Complexity)
| Waiting.

Section LoadEffect.

Variable URL_parses : string -> bool.
Variable setFromObject : Object3D -> Box3.

(** The load effect: URL check, model check, complexity, fit, then the
    success callback with the model and its complexity. *)
Definition loadEffect (sanitizedUrl : ModelValidation.UrlArg)
    (gltf : option GLTF) (enableBounds : bool) (scale : Q)
    (t : SceneTransform) : LoadOutcome :=
  let urlValidation := ModelValidation.validateModelUrl URL_parses sanitizedUrl in
  if negb (ModelValidation.isValid urlValidation) then
    Failed (ModelValidation.error urlValidation)
  else
    match gltf with
    | None => Waiting
    | Some g =>
        let modelValidation := ModelValidation.validateLoadedModel gltf in
        if negb (ModelValidation.mc_isValid modelValidation) then
          Failed (ModelValidation.mc_error modelValidation)
        else
          let complexityInfo := ModelValidation.analyzeModelComplexity gltf in
          let t :=
            match scene g with
            | Some sc => centerAndFit enableBounds scale (setFromObject sc) t
            | None => t
            end in
          Loaded t complexityInfo
    end.

End LoadEffect.

(** The animation hook of the scene library, as the component relies on
    it: one action per clip, reached by the clip's name, and the names in
    clip order. *)
Definition useAnimations (clips : list AnimationClip)
  : gmap string AnimationClip * list string :=
  (fold_left (fun actions clip => <[name clip := clip]> actions) clips ∅,
   map name clips).

(** [actions] is a plain object: besides the actions of the clips, a
    lookup by name finds what every object inherits from
    [Object.prototype]. These are its members. *)
Definition objectPrototypeNames : list string :=
  ["constructor"; "hasOwnProperty"; "isPrototypeOf"; "propertyIsEnumerable";
   "toLocaleString"; "toString"; "valueOf"; "__proto__";
   "__defineGetter__"; "__defineSetter__";
   "__lookupGetter__"; "__lookupSetter__"].

(** What [actions[name]] finds: the action of the clip of that name, or
    an inherited member, which is truthy and has no [reset]. *)
Inductive Member :=
| Action (clip : AnimationClip)
| Inherited.

(** What a run of the playback effect ends in: an action reset and
    played, nothing played, or the exception of the call of [reset] on a
    member that has none. *)
Inductive Playback :=
| Plays (name : string)
| PlaysNothing
| Throws.

Section Playback.

Variable actions : gmap string AnimationClip.
Variable names : list string.

(** [actions[n]]: the own entry first, else the inherited member. *)
Definition getMember (n : string) : option Member :=
  match actions !! n with
  | Some clip => Some (Action clip)
  | None =>
      if bool_decide (n ∈ objectPrototypeNames) then Some Inherited else None
  end.

(** [name && actions[name]]. *)
Definition hasAction (n : option string) : bool :=
  match n with
  | Some n => Js.truthy n && bool_decide (is_Some (getMember n))
  | None => false
  end.

(** The loop over the common names: the first one with an action. *)
Fixpoint firstWithAction (l : list (option string)) : option string :=
  match l with
  | [] => None
  | n :: l' => if hasAction n then n else firstWithAction l'
  end.

Definition commonNames : list (option string) :=
  [Some "idle"; Some "animation"; Some "action"; Some "default"; Js.nth names 0].

(** The playback effect: every action is stopped; then the requested name
    is taken when [actions] has a member of that name, else the first
    common name with one, and that member is reset and played. *)
Definition playbackEffect (currentAnimation : option string)
    (playAnimations : bool) : Playback :=
  if Z.of_nat (length names) =? 0 then PlaysNothing
  else if playAnimations && (0 <? Z.of_nat (length names)) then
    let animationToPlay :=
      if hasAction currentAnimation then currentAnimation
      else firstWithAction commonNames in
    match animationToPlay with
    | Some n =>
        if Js.truthy n then
          match getMember n with
          | Some (Action _) => Plays n
          | Some Inherited => Throws
          | None => PlaysNothing
          end
        else PlaysNothing
    | None => PlaysNothing
    end
  else PlaysNothing.

End Playback.

End AnimatedModel.

(** ** The scene object of a model, shown more than once *)

Module SharedScene.
Import Three.

(** The loader keeps one model object per URL and hands the same object
    to every showing.  Of its scene this records [restBox], the box of
    the geometry as measured while the scene has no translation and the
    scale one, and [transform], the position and scale the load effect
    has last written to the scene. *)
Record Scene := {
  restBox : Box3;
  transform : AnimatedModel.SceneTransform
}.

(** The scene as the loader first delivers it. *)
Definition fresh (b : Box3) : Scene :=
  {| restBox := b;
     transform :=
       {| AnimatedModel.scene_position := zero;
          AnimatedModel.scene_scale := AnimatedModel.setScalar 1 |} |}.

(** A coordinate [c] of the rest box under the position [p] and the
    scale [k] of the scene. *)
Definition place (p k c : Q) : Q := (p + k * c)%Q.

(** [new THREE.Box3().setFromObject(scene)] on a scene that is not
    rotated and hangs under groups at the origin with scale one, as the
    groups of the viewer are when the load effect runs after a mount:
    the rest box under the scene's own position and scale, the corners
    put in order again; a box without content stays without content. *)
Definition setFromObject (s : Scene) : Box3 :=
  let b := restBox s in
  if isEmpty b then b
  else
    let p := AnimatedModel.scene_position (transform s) in
    let k := AnimatedModel.scene_scale (transform s) in
    {| min := {| x := Qmin (place (x p) (x k) (x (min b)))
                           (place (x p) (x k) (x (max b)));
                 y := Qmin (place (y p) (y k) (y (min b)))
                           (place (y p) (y k) (y (max b)));
                 z := Qmin (place (z p) (z k) (z (min b)))
                           (place (z p) (z k) (z (max b))) |};
       max := {| x := Qmax (place (x p) (x k) (x (min b)))
                           (place (x p) (x k) (x (max b)));
                 y := Qmax (place (y p) (y k) (y (min b)))
                           (place (y p) (y k) (y (max b)));
                 z := Qmax (place (z p) (z k) (z (min b)))
                           (place (z p) (z k) (z (max b))) |} |}.

Section Showing.

Variable URL_parses : string -> bool.
Variable targetSize : Q.
Variable product : option ProductViewer.Product.

(** One showing of the model in a viewer: the load effect of the model
    component runs on the scene as it is (the viewer leaves
    [enableBounds] at its default [true] and passes the scale 1) and
    writes the fit to the scene; its success callback, [handleModelLoad]
    of the viewer, then measures the scene as the effect left it.  The
    result is the scene afterwards and the state of the viewer, [None]
    when the success callback is not reached. *)
Definition show (sanitizedUrl : ModelValidation.UrlArg) (gltf : GLTF)
    (s : Scene) (st : ProductViewer.State)
  : Scene * option ProductViewer.State :=
  match AnimatedModel.loadEffect URL_parses (fun _ => setFromObject s)
          sanitizedUrl (Some gltf) true 1 (transform s) with
  | AnimatedModel.Loaded t complexityInfo =>
      let s' := {| restBox := restBox s; transform := t |} in
      (s', ProductViewer.handleModelLoad (fun _ => setFromObject s')
             targetSize product gltf complexityInfo st)
  | _ => (s, None)
  end.

End Showing.

End SharedScene.

(** ** The specification's side: counts, clip names and translation *)

Module Spec.
Import Three.

(** All nodes of a scene graph, the root first. *)
Fixpoint nodes (o : Object3D) : list Object3D :=
  match o with
  | mkObject3D _ _ ch =>
      o :: match ch with
           | Some cs => flat_map nodes cs
           | None => []
           end
  end.

(** The vertex count a mesh node is drawn from: the index count when an
    index buffer exists, else the position count; nothing for a node that
    is no mesh or has no geometry. *)
Definition drawCount (o : Object3D) : Z :=
  if String.eqb (type o) "Mesh" then
    match geometry o with
    | Some g =>
        match index g with
        | Some i => count i
        | None =>
            match attributes g with
            | Some {| position := Some p |} => count p
            | _ => 0
            end
        end
    | None => 0
    end
  else 0.

Definition list_sum (l : list Z) : Z := foldr Z.add 0 l.

(** Triangle count per the specification: per mesh a third of the draw
    count, floored, summed over the graph. *)
Definition triangleCount (o : Object3D) : Z :=
  list_sum (map (fun n => Qfloor (inject_Z (drawCount n) / 3)) (nodes o)).

(** "translation = -center * scale", as numbers. *)
Definition translationIs (center : Vector3) (scale : Q)
    (translation : Vector3) : Prop :=
  (x translation == - x center * scale
   /\ y translation == - y center * scale
   /\ z translation == - z center * scale)%Q.

(** The clip names a loaded model offers: the names of its clips that are
    not empty, in loader order. *)
Definition clipNames (clips : option (list AnimationClip)) : list string :=
  filter (fun n => n <> "") (map name (default [] clips)).

(** Mesh count per the specification: the nodes of type Mesh. *)
Definition meshCount (o : Object3D) : Z :=
  Z.of_nat (length (filter (fun n => type n = "Mesh") (nodes o))).

End Spec.

(** ** Sample scene graphs *)

Module Examples.
Import Three.

(** A mesh with an index buffer of [n] entries and no children. *)
Definition mesh (n : Z) : Object3D :=
  mkObject3D "Mesh"
    (Some {| index := Some {| count := n |}; attributes := None |})
    (Some []).

(** A mesh without index buffer, drawn from [n] positions. *)
Definition rawMesh (n : Z) : Object3D :=
  mkObject3D "Mesh"
    (Some {| index := None;
             attributes := Some {| position := Some {| count := n |} |} |})
    (Some []).

Definition meshes (k : nat) (n : Z) : list Object3D := replicate k (mesh n).

Definition group (cs : list Object3D) : Object3D :=
  mkObject3D "Group" None (Some cs).

Definition vec (a b c : Q) : Vector3 := {| x := a; y := b; z := c |}.

(** The box from (0,0,0) to (2,2,2), and the box that is the point
    (1,1,1). *)
Definition cube : Box3 := {| min := vec 0 0 0; max := vec 2 2 2 |}.
Definition point : Box3 := {| min := vec 1 1 1; max := vec 1 1 1 |}.

(** A box without content, as measured on a scene without geometry. *)
Definition emptyBox : Box3 := {| min := vec 1 1 1; max := vec (-1) (-1) (-1) |}.

Definition clip (n : string) : AnimationClip := {| name := n; duration := 1 |}.

End Examples.

(** ** More of JavaScript's strings *)

Module JsString.

(** The white space and line terminators that [trim] strips, among the
    ASCII characters: tab to carriage return, and the space. *)
Definition isSpace (c : ascii) : bool :=
  let n := nat_of_ascii c in
  (((9 <=? n) && (n <=? 13)) || (n =? 32))%nat.

Fixpoint trimStart (s : string) : string :=
  match s with
  | EmptyString => EmptyString
  | String c s' => if isSpace c then trimStart s' else s
  end.

Fixpoint trimEnd (s : string) : string :=
  match s with
  | EmptyString => EmptyString
  | String c s' =>
      let r := trimEnd s' in
      if isSpace c && String.eqb r "" then EmptyString else String c r
  end.

(** [s.trim()]. *)
Definition trim (s : string) : string := trimEnd (trimStart s).

(** [s.substring(n)] and [s.slice(n)] for [0 <= n]. *)
Fixpoint drop (n : nat) (s : string) : string :=
  match n, s with
  | O, _ => s
  | S _, EmptyString => EmptyString
  | S n', String _ s' => drop n' s'
  end.

(** [s.substring(0, n)] for a natural [n]. *)
Fixpoint take (n : nat) (s : string) : string :=
  match n, s with
  | O, _ => EmptyString
  | S _, EmptyString => EmptyString
  | S n', String c s' => String c (take n' s')
  end.

(** [s.substring(0, e)] for a number [e]: below zero counts as zero. *)
Definition substringTo (s : string) (e : Z) : string := take (Z.to_nat e) s.

(** [s.endsWith(t)]. *)
Definition endsWith (s t : string) : bool :=
  (String.length t <=? String.length s)%nat
  && String.eqb (drop (String.length s - String.length t) s) t.

(** [s.replace(pat, rep)] for a string pattern and a replacement without
    dollar signs: the first occurrence only. *)
Fixpoint replaceFirst (s pat rep : string) : string :=
  if Js.startsWith s pat then rep +:+ drop (String.length pat) s
  else match s with
       | EmptyString => EmptyString
       | String c s' => String c (replaceFirst s' pat rep)
       end.

(** [String.prototype.toUpperCase], on the ASCII letters. *)
Definition upperChar (c : ascii) : ascii :=
  let n := nat_of_ascii c in
  if ((97 <=? n) && (n <=? 122))%nat then ascii_of_nat (n - 32) else c.

(** [s.replace(/[_-]/g, ' ')]. *)
Fixpoint spaceOut (s : string) : string :=
  match s with
  | EmptyString => EmptyString
  | String c s' =>
      String (if Ascii.eqb c "_" || Ascii.eqb c "-" then " "%char else c)
             (spaceOut s')
  end.

(** The lower-case letters and the digits. *)
Definition isLowerAlnum (c : ascii) : bool :=
  let n := nat_of_ascii c in
  (((97 <=? n) && (n <=? 122)) || ((48 <=? n) && (n <=? 57)))%nat.

(** The strings of ASCII characters: on these the case mappings above are
    those of the platform. *)
Fixpoint isAscii (s : string) : bool :=
  match s with
  | EmptyString => true
  | String c s' => (nat_of_ascii c <? 128)%nat && isAscii s'
  end.

End JsString.

(** ** utils/helpers.js *)

Module Helpers.

(** [capitalize]: an argument that is no string, or is empty, gives the
    empty string.  The case mappings are those of the ASCII letters, one
    letter to one letter; they are the program's on the strings of ASCII
    characters ([JsString.isAscii]), not beyond. *)
Definition capitalize (str : option string) : string :=
  match str with
  | Some (String c s') => String (JsString.upperChar c) (Js.toLowerCase s')
  | _ => ""
  end.

(** [clamp]. *)
Definition clamp (num min max : Q) : Q := Qmin (Qmax num min) max.

(** [truncateText]: [suffix] is "..." unless the caller passes another. *)
Definition truncateText (text : option string) (maxLength : Z)
    (suffix : string) : string :=
  match text with
  | Some text =>
      if negb (Js.truthy text) then ""
      else if Z.of_nat (String.length text) <=? maxLength then text
      else JsString.substringTo text (maxLength - Z.of_nat (String.length suffix))
           +:+ suffix
  | None => ""
  end.

(** The values [isEmpty] tells apart: for an array its length, for any
    other object the number of its own keys. *)
Inductive Value :=
| VNull
| VString (s : string)
| VArray (length : nat)
| VObject (keys : nat)
| VOther.

Definition isEmpty (value : Value) : bool :=
  match value with
  | VNull => true
  | VString s => (String.length (JsString.trim s) =? 0)%nat
  | VArray n => (n =? 0)%nat
  | VObject n => (n =? 0)%nat
  | VOther => false
  end.

End Helpers.

(** ** The rest of utils/modelValidation.js *)

Module ModelErrors.

(** An error object: [toString] is the one of [Error.prototype]. *)
Record JsError := { name : string; message : string }.

Definition toString (e : JsError) : string :=
  if negb (Js.truthy (name e)) then message e
  else if negb (Js.truthy (message e)) then name e
  else name e +:+ ": " +:+ message e.

(** [new Error(msg)]. *)
Definition newError (msg : string) : JsError :=
  {| name := "Error"; message := msg |}.

(** [error.message || error.toString()]. *)
Definition errorMessage (e : JsError) : string :=
  if Js.truthy (message e) then message e else toString e.

Definition corsKeywords : list string :=
  ["cors"; "cross-origin"; "access-control"; "network error"; "failed to fetch"].

Definition isCorsError (error : option JsError) : bool :=
  match error with
  | None => false
  | Some e =>
      existsb (fun keyword => Js.includes (Js.toLowerCase (errorMessage e)) keyword)
              corsKeywords
  end.

Definition getModelErrorMessage (error : option JsError) : string :=
  match error with
  | None => "Unknown error occurred"
  | Some e =>
      if isCorsError error then
        "Unable to load 3D model due to network restrictions. Please check if the model file is accessible."
      else
        let errorMessage := errorMessage e in
        if Js.includes errorMessage "404" || Js.includes errorMessage "not found"
        then "3D model file not found. Please check if the file exists on the server."
        else if Js.includes errorMessage "parse" || Js.includes errorMessage "format"
        then "Invalid 3D model format. Please ensure the file is a valid GLB or GLTF file."
        else if Js.includes errorMessage "timeout"
        then "Model loading timed out. The file might be too large or the server is slow."
        else "Failed to load 3D model: " +:+ errorMessage
  end.

(** [sanitizeModelUrl], for a URL that is a string or missing. *)
Definition sanitizeModelUrl (url : option string) : option string :=
  match url with
  | None => None
  | Some url =>
      if negb (Js.truthy url) then None
      else
        let sanitized := JsString.trim url in
        if Js.includes sanitized "javascript:"
           || Js.includes sanitized "data:text/html"
        then None
        else Some sanitized
  end.

(** A sanitized URL as the argument of [validateModelUrl]. *)
Definition urlArg (url : option string) : ModelValidation.UrlArg :=
  match url with
  | None => ModelValidation.UrlNull
  | Some s => ModelValidation.UrlString s
  end.

End ModelErrors.

(** ** services/productService.js *)

Module ProductService.

Section Service.

(** [process.env.REACT_APP_API_BASE_URL]. *)
Variable REACT_APP_API_BASE_URL : option string.

Definition getAssetBaseUrl : string :=
  let baseUrl :=
    match REACT_APP_API_BASE_URL with
    | Some s => if Js.truthy s then s else "http://localhost:5000"
    | None => "http://localhost:5000"
    end in
  JsString.replaceFirst baseUrl "/api" "".

Definition getModelUrl (modelPath : option string) : option string :=
  match modelPath with
  | None => None
  | Some modelPath =>
      if negb (Js.truthy modelPath) then None
      else
        let baseUrl := getAssetBaseUrl in
        let filename := modelPath in
        let filename :=
          if Js.startsWith filename "/" then JsString.drop 1 filename
          else filename in
        let filename :=
          if Js.startsWith filename "models/" then JsString.drop 7 filename
          else filename in
        Some (baseUrl +:+ "/models/" +:+ filename)
  end.

Definition getImageUrl (imagePath : option string) : option string :=
  match imagePath with
  | None => None
  | Some imagePath =>
      if negb (Js.truthy imagePath) then None
      else if Js.startsWith imagePath "http" then Some imagePath
      else
        let baseUrl := getAssetBaseUrl in
        let filename := imagePath in
        let filename :=
          if Js.startsWith filename "/" then JsString.drop 1 filename
          else filename in
        let filename :=
          if Js.startsWith filename "images/" then JsString.drop 7 filename
          else filename in
        Some (baseUrl +:+ "/images/" +:+ filename)
  end.

End Service.

End ProductService.

(** ** The handlers of the viewer, as the controls reach them *)

Module ViewerControls.

(** The setting cells of the viewer. *)
Record Settings := {
  wireframeMode : bool;
  autoRotateEnabled : bool;
  rotationSpeed : Q;
  environment : string;
  quality : string;
  animationSpeed : Q
}.

(** What the user can do through the two control panels. *)
Inductive Event :=
| WireframeToggle (enabled : bool)
| RotationToggle (enabled : bool)
| RotationSpeedChange (speed : Q)
| ScaleChange (scale : Q)
| EnvironmentChange (env : string)
| QualityChange (q : string)
| ResetCamera
| ResetModel
| AnimationToggle (enabled : bool)
| AnimationChange (animationName : option string)
| AnimationSpeedChange (speed : Q).

Section Handlers.

(** The [autoRotate] prop. *)
Variable autoRotate : bool.

(** [handleResetModel]: the scale goes back to the normalized one and the
    settings to their defaults; the animation speed is not among them. *)
Definition handleResetModel (v : ProductViewer.State * Settings)
  : ProductViewer.State * Settings :=
  let (st, se) := v in
  (ProductViewer.setModelScale (ProductViewer.normalizedScale st) st,
   {| wireframeMode := false; autoRotateEnabled := autoRotate;
      rotationSpeed := 1 # 100; environment := "studio"; quality := "medium";
      animationSpeed := animationSpeed se |}).

Definition handle (e : Event) (v : ProductViewer.State * Settings)
  : ProductViewer.State * Settings :=
  let (st, se) := v in
  match e with
  | WireframeToggle enabled =>
      (st, {| wireframeMode := enabled;
              autoRotateEnabled := autoRotateEnabled se;
              rotationSpeed := rotationSpeed se; environment := environment se;
              quality := quality se; animationSpeed := animationSpeed se |})
  | RotationToggle enabled =>
      (st, {| wireframeMode := wireframeMode se;
              autoRotateEnabled := enabled;
              rotationSpeed := rotationSpeed se; environment := environment se;
              quality := quality se; animationSpeed := animationSpeed se |})
  | RotationSpeedChange speed =>
      (st, {| wireframeMode := wireframeMode se;
              autoRotateEnabled := autoRotateEnabled se;
              rotationSpeed := speed; environment := environment se;
              quality := quality se; animationSpeed := animationSpeed se |})
  | ScaleChange scale => (ProductViewer.handleScaleChange scale st, se)
  | EnvironmentChange env =>
      (st, {| wireframeMode := wireframeMode se;
              autoRotateEnabled := autoRotateEnabled se;
              rotationSpeed := rotationSpeed se; environment := env;
              quality := quality se; animationSpeed := animationSpeed se |})
  | QualityChange q =>
      (st, {| wireframeMode := wireframeMode se;
              autoRotateEnabled := autoRotateEnabled se;
              rotationSpeed := rotationSpeed se; environment := environment se;
              quality := q; animationSpeed := animationSpeed se |})
  | ResetCamera => (st, se)
  | ResetModel => handleResetModel (st, se)
  | AnimationToggle enabled => (ProductViewer.handleAnimationToggle enabled st, se)
  | AnimationChange animationName =>
      (ProductViewer.handleAnimationChange animationName st, se)
  | AnimationSpeedChange speed =>
      (st, {| wireframeMode := wireframeMode se;
              autoRotateEnabled := autoRotateEnabled se;
              rotationSpeed := rotationSpeed se; environment := environment se;
              quality := quality se; animationSpeed := speed |})
  end.

(** The events of a session, handled one after the other. *)
Definition run (events : list Event) (v : ProductViewer.State * Settings)
  : ProductViewer.State * Settings :=
  fold_left (fun v e => handle e v) events v.

End Handlers.

(** A callback of the animation controls, as the viewer wires it. *)
Definition dispatch (c : AnimationControls.Callback)
    (st : ProductViewer.State) : ProductViewer.State :=
  match c with
  | AnimationControls.onAnimationChange animationName =>
      ProductViewer.handleAnimationChange animationName st
  | AnimationControls.onAnimationToggle enabled =>
      ProductViewer.handleAnimationToggle enabled st
  end.

Definition dispatchAll (cs : list AnimationControls.Callback)
    (st : ProductViewer.State) : ProductViewer.State :=
  fold_left (fun st c => dispatch c st) cs st.

End ViewerControls.

(** ** The rest of the animation controls *)

Module AnimationPanel.

(** The stop button. *)
Definition stop (st : AnimationControls.State)
  : AnimationControls.State * list AnimationControls.Callback :=
  ({| AnimationControls.selectedAnimation := None |},
   [AnimationControls.onAnimationToggle false;
    AnimationControls.onAnimationChange None]).

(** The restart button. *)
Definition restart (st : AnimationControls.State)
  : AnimationControls.State * list AnimationControls.Callback :=
  match AnimationControls.selectedAnimation st with
  | Some s =>
      if Js.truthy s then
        (st, [AnimationControls.onAnimationChange (Some s);
              AnimationControls.onAnimationToggle true])
      else (st, [])
  | None => (st, [])
  end.

(** The first replacement of [formatAnimationName]: "anim" at the start,
    in any letter case, and one underscore after it. *)
Definition stripAnimPrefix (s : string) : string :=
  if Js.startsWith (Js.toLowerCase s) "anim" then
    let rest := JsString.drop 4 s in
    if Js.startsWith rest "_" then JsString.drop 1 rest else rest
  else s.

(** The second: ".glb" or ".gltf" at the end, in any letter case. *)
Definition stripModelSuffix (s : string) : string :=
  if JsString.endsWith (Js.toLowerCase s) ".glb"
  then JsString.take (String.length s - 4) s
  else if JsString.endsWith (Js.toLowerCase s) ".gltf"
  then JsString.take (String.length s - 5) s
  else s.

Definition formatAnimationName (name : option string) : string :=
  match name with
  | None => "None"
  | Some name =>
      if negb (Js.truthy name) then "None"
      else
        let cleaned :=
          JsString.trim
            (JsString.spaceOut (stripModelSuffix (stripAnimPrefix name))) in
        let capitalized := Helpers.capitalize (Some cleaned) in
        if Js.truthy capitalized then capitalized else name
  end.

End AnimationPanel.

(** ** pages/ProductGallery.js *)

Module ProductGallery.

Record Product := { name : string; category : string }.

(** [filterProducts]: what it stores as the filtered products. *)
Definition filterProducts (products : list Product)
    (selectedCategory searchTerm : string) : list Product :=
  let filtered := products in
  let filtered :=
    if negb (String.eqb selectedCategory "All") then
      List.filter (fun product => String.eqb (category product) selectedCategory)
                  filtered
    else filtered in
  let filtered :=
    if negb (Helpers.isEmpty (Helpers.VString searchTerm)) then
      let term := JsString.trim (Js.toLowerCase searchTerm) in
      List.filter
        (fun product =>
           Js.includes (Js.toLowerCase (name product)) term
           || Js.includes (Js.toLowerCase (category product)) term)
        filtered
    else filtered in
  filtered.

End ProductGallery.

(** * Properties *)

(** ** Scene graphs: induction and counting *)

Section Object3DInduction.
Import Three.

Variable P : Object3D -> Prop.
Hypothesis leaf : forall ty geo, P (mkObject3D ty geo None).
Hypothesis node :
  forall ty geo cs, Forall P cs -> P (mkObject3D ty geo (Some cs)).

Lemma Object3D_nested_ind : forall o, P o.
Proof.
  fix IH 1.
  intros [ty geo [cs|]]; [|apply leaf].
  apply node.
  induction cs as [|c cs IHcs]; constructor; [apply IH | exact IHcs].
Qed.

End Object3DInduction.

Lemma fold_left_add_sum {A} (f : A -> Z) (l : list A) (a : Z) :
  fold_left (fun count child => count + f child) l a
  = a + Spec.list_sum (map f l).
Proof.
  revert a; induction l as [|c l IH]; intros a; simpl.
  - lia.
  - rewrite IH. unfold Spec.list_sum. simpl. lia.
Qed.

Lemma list_sum_app (l1 l2 : list Z) :
  Spec.list_sum (l1 ++ l2) = Spec.list_sum l1 + Spec.list_sum l2.
Proof.
  unfold Spec.list_sum. induction l1 as [|a l1 IH]; simpl; lia.
Qed.

Lemma list_sum_ext {A} (f g : A -> Z) (l : list A) :
  Forall (fun a => f a = g a) l ->
  Spec.list_sum (map f l) = Spec.list_sum (map g l).
Proof.
  unfold Spec.list_sum.
  induction 1 as [|a l Ha _ IH]; simpl; [reflexivity | rewrite Ha, IH; reflexivity].
Qed.

(** Flooring commutes with adding an integer. *)
Lemma Qfloor_add_Z (q : Q) (n : Z) :
  Qfloor (q + inject_Z n) = Qfloor q + n.
Proof.
  destruct q as [a d]. unfold Qplus, inject_Z, Qfloor. simpl.
  rewrite Pos.mul_1_r, Z.mul_1_r.
  rewrite Z.div_add by discriminate. reflexivity.
Qed.

Lemma Qfloor_fold_children {A} (f : A -> Z) (l : list A) (q : Q) :
  Qfloor (fold_left (fun count child => (count + inject_Z (f child))%Q) l q)
  = Qfloor q + Spec.list_sum (map f l).
Proof.
  revert q; induction l as [|c l IH]; intros q; simpl.
  - unfold Spec.list_sum; simpl; lia.
  - rewrite IH, Qfloor_add_Z. unfold Spec.list_sum. simpl. lia.
Qed.

(** The own share of a node is a third of its draw count. *)
Lemma ownTriangles_drawCount ty geo ch :
  Qfloor (ModelValidation.ownTriangles ty geo)
  = Qfloor (inject_Z (Spec.drawCount (Three.mkObject3D ty geo ch)) / 3).
Proof.
  unfold ModelValidation.ownTriangles, Spec.drawCount.
  cbn [Three.type Three.geometry].
  destruct (String.eqb ty "Mesh"); [|reflexivity].
  destruct geo as [[[i|] [[[p|]]|]]|];
    cbn [Three.index Three.attributes Three.position];
    try reflexivity; apply Qfloor_comp; ring.
Qed.

Lemma list_sum_cons (a : Z) (l : list Z) :
  Spec.list_sum (a :: l) = a + Spec.list_sum l.
Proof. reflexivity. Qed.

Lemma list_sum_flat_map {A B} (g : A -> list B) (f : B -> Z) (cs : list A) :
  Spec.list_sum (map f (flat_map g cs))
  = Spec.list_sum (map (fun c => Spec.list_sum (map f (g c))) cs).
Proof.
  induction cs as [|c cs IH]; [reflexivity|].
  cbn [flat_map map]. rewrite map_app, list_sum_app, list_sum_cons, IH.
  reflexivity.
Qed.

Lemma nodes_node ty geo cs :
  Spec.nodes (Three.mkObject3D ty geo (Some cs))
  = Three.mkObject3D ty geo (Some cs) :: flat_map Spec.nodes cs.
Proof. reflexivity. Qed.

Lemma spec_triangleCount_node ty geo cs :
  Spec.triangleCount (Three.mkObject3D ty geo (Some cs))
  = Qfloor (inject_Z (Spec.drawCount (Three.mkObject3D ty geo (Some cs))) / 3)
    + Spec.list_sum (map Spec.triangleCount cs).
Proof.
  unfold Spec.triangleCount at 1.
  rewrite nodes_node, map_cons, list_sum_cons, list_sum_flat_map.
  reflexivity.
Qed.

Lemma countTriangles_spec (o : Three.Object3D) :
  ModelValidation.countTriangles o = Spec.triangleCount o.
Proof.
  induction o as [ty geo|ty geo cs IH] using Object3D_nested_ind.
  - simpl. unfold Spec.triangleCount. simpl.
    rewrite (ownTriangles_drawCount ty geo None).
    unfold Spec.list_sum; simpl; lia.
  - rewrite spec_triangleCount_node. simpl.
    rewrite Qfloor_fold_children, (ownTriangles_drawCount ty geo (Some cs)).
    f_equal. apply list_sum_ext. exact IH.
Qed.

Lemma length_filter_flat_map {A B} (g : A -> list B) (P : B -> Prop)
    `{forall b, Decision (P b)} (cs : list A) :
  Z.of_nat (length (filter P (flat_map g cs)))
  = Spec.list_sum (map (fun c => Z.of_nat (length (filter P (g c)))) cs).
Proof.
  induction cs as [|c cs IH]; [reflexivity|].
  cbn [flat_map map].
  rewrite filter_app, length_app, Nat2Z.inj_add, list_sum_cons, IH.
  reflexivity.
Qed.

Lemma spec_meshCount_node ty geo cs :
  Spec.meshCount (Three.mkObject3D ty geo (Some cs))
  = (if String.eqb ty "Mesh" then 1 else 0)
    + Spec.list_sum (map Spec.meshCount cs).
Proof.
  unfold Spec.meshCount at 1.
  rewrite nodes_node, filter_cons. cbn [Three.type].
  destruct (String.eqb_spec ty "Mesh") as [->|Hne].
  - rewrite decide_True by reflexivity. cbn [length].
    rewrite Nat2Z.inj_succ, length_filter_flat_map. unfold Spec.meshCount. lia.
  - rewrite decide_False by exact Hne.
    rewrite length_filter_flat_map. unfold Spec.meshCount. lia.
Qed.

Lemma countMeshes_spec (o : Three.Object3D) :
  ModelValidation.countMeshes o = Spec.meshCount o.
Proof.
  induction o as [ty geo|ty geo cs IH] using Object3D_nested_ind.
  - unfold Spec.meshCount. simpl. rewrite filter_cons. simpl.
    destruct (String.eqb_spec ty "Mesh") as [->|Hne].
    + rewrite decide_True by reflexivity. reflexivity.
    + rewrite decide_False by exact Hne. reflexivity.
  - rewrite spec_meshCount_node. simpl.
    rewrite fold_left_add_sum.
    destruct (String.eqb ty "Mesh"); f_equal; apply list_sum_ext; exact IH.
Qed.

(** ** Complexity analysis *)

(** C7: the analyzer's triangle count is the sum, over the mesh nodes with
    a geometry, of a third of the index count when an index buffer exists
    and else of the position count, each floored; its mesh count is the
    number of nodes of type Mesh. *)
Theorem C7_counts_follow_spec (sc : Three.Object3D)
    (anims : option (list Three.AnimationClip)) :
  let r := ModelValidation.analyzeModelComplexity
             (Some {| Three.scene := Some sc; Three.animations := anims |}) in
  ModelValidation.countTriangles sc = Spec.triangleCount sc
  /\ ModelValidation.countMeshes sc = Spec.meshCount sc
  /\ ModelValidation.triangleCount r = Spec.triangleCount sc
  /\ ModelValidation.meshCount r = Spec.meshCount sc.
Proof.
  cbn zeta. cbn [ModelValidation.analyzeModelComplexity
                 ModelValidation.triangleCount ModelValidation.meshCount].
  rewrite countTriangles_spec, countMeshes_spec. auto.
Qed.

(** Each mesh is floored by itself: two meshes of 5 indices count 2
    triangles, where a third of all 10 indices would floor to 3. *)
Example countTriangles_floors_each_mesh :
  ModelValidation.countTriangles
    (Examples.group [Examples.mesh 5; Examples.rawMesh 5]) = 2
  /\ Qfloor (inject_Z (5 + 5) / 3) = 3.
Proof. split; vm_compute; reflexivity. Qed.

(** C6: a model with a scene is "high" above 50,000 triangles or 50
    meshes, else "medium" above 10,000 triangles or 20 meshes, else "low";
    so 60,000 triangles in 10 meshes is "high", 5,000 triangles in 5
    meshes is "low", and 10,001 triangles (in at most 50 meshes) is
    "medium". *)
Theorem C6_complexity_tiers (sc : Three.Object3D)
    (anims : option (list Three.AnimationClip)) :
  let r := ModelValidation.analyzeModelComplexity
             (Some {| Three.scene := Some sc; Three.animations := anims |}) in
  let t := ModelValidation.countTriangles sc in
  let m := ModelValidation.countMeshes sc in
  ModelValidation.triangleCount r = t /\ ModelValidation.meshCount r = m
  /\ ((50000 < t \/ 50 < m) -> ModelValidation.complexity r = "high")
  /\ (~ (50000 < t \/ 50 < m) -> (10000 < t \/ 20 < m) ->
      ModelValidation.complexity r = "medium")
  /\ (~ (50000 < t \/ 50 < m) -> ~ (10000 < t \/ 20 < m) ->
      ModelValidation.complexity r = "low")
  /\ (t = 60000 -> m = 10 -> ModelValidation.complexity r = "high")
  /\ (t = 5000 -> m = 5 -> ModelValidation.complexity r = "low")
  /\ (t = 10001 -> m <= 50 -> ModelValidation.complexity r = "medium").
Proof.
  cbn zeta.
  cbn [ModelValidation.analyzeModelComplexity ModelValidation.triangleCount
       ModelValidation.meshCount ModelValidation.complexity].
  set (t := ModelValidation.countTriangles sc).
  set (m := ModelValidation.countMeshes sc).
  destruct (Z.ltb_spec 50000 t), (Z.ltb_spec 50 m),
           (Z.ltb_spec 10000 t), (Z.ltb_spec 20 m);
    cbn [orb]; repeat split; intros; try reflexivity; exfalso; lia.
Qed.

Lemma C6_complexity_tiers_witness :
  let r n k := ModelValidation.analyzeModelComplexity
                 (Some {| Three.scene := Some (Examples.group (Examples.meshes n k));
                          Three.animations := None |}) in
  (ModelValidation.triangleCount (r 10%nat 18000) = 60000
   /\ ModelValidation.meshCount (r 10%nat 18000) = 10
   /\ ModelValidation.complexity (r 10%nat 18000) = "high")
  /\ (ModelValidation.triangleCount (r 5%nat 3000) = 5000
      /\ ModelValidation.meshCount (r 5%nat 3000) = 5
      /\ ModelValidation.complexity (r 5%nat 3000) = "low")
  /\ (ModelValidation.triangleCount (r 1%nat 30003) = 10001
      /\ ModelValidation.complexity (r 1%nat 30003) = "medium").
Proof.
  cbn zeta.
  pose proof (C6_complexity_tiers
                (Examples.group (Examples.meshes 10 18000)) None) as H1.
  pose proof (C6_complexity_tiers
                (Examples.group (Examples.meshes 5 3000)) None) as H2.
  pose proof (C6_complexity_tiers
                (Examples.group (Examples.meshes 1 30003)) None) as H3.
  cbn zeta in H1, H2, H3.
  destruct H1 as (_ & _ & _ & _ & _ & H1 & _ & _).
  destruct H2 as (_ & _ & _ & _ & _ & _ & H2 & _).
  destruct H3 as (_ & _ & _ & _ & _ & _ & _ & H3).
  refine (conj (conj _ (conj _ _)) (conj (conj _ (conj _ _)) (conj _ _))).
  - vm_compute; reflexivity.
  - vm_compute; reflexivity.
  - apply H1; vm_compute; reflexivity.
  - vm_compute; reflexivity.
  - vm_compute; reflexivity.
  - apply H2; vm_compute; reflexivity.
  - vm_compute; reflexivity.
  - apply H3; vm_compute; [reflexivity | discriminate].
Defined.

(** ** Model validation *)

(** C9: a model whose scene has no children is rejected as an empty scene,
    and the load effect then fails instead of reporting a loaded model; a
    model whose scene has at least one child passes validation. *)
Theorem C9_empty_scene_rejected (model : Three.GLTF) (sc : Three.Object3D) :
  Three.scene model = Some sc ->
  ((Three.children sc = None \/ Three.children sc = Some []) ->
     ModelValidation.validateLoadedModel (Some model)
     = ModelValidation.invalid "Model scene has no children (empty model)"
                               "empty_scene"
     /\ forall URL_parses setFromObject url enableBounds scale t,
          match AnimatedModel.loadEffect URL_parses setFromObject url
                  (Some model) enableBounds scale t with
          | AnimatedModel.Loaded _ _ => False
          | AnimatedModel.Failed e => is_Some e
          | AnimatedModel.Waiting => False
          end)
  /\ (forall c cs, Three.children sc = Some (c :: cs) ->
        ModelValidation.mc_isValid
          (ModelValidation.validateLoadedModel (Some model)) = true
        /\ ModelValidation.mc_error
             (ModelValidation.validateLoadedModel (Some model)) = None).
Proof.
  intros Hsc. split.
  - intros Hch.
    assert (Hv : ModelValidation.validateLoadedModel (Some model)
                 = ModelValidation.invalid
                     "Model scene has no children (empty model)" "empty_scene").
    { unfold ModelValidation.validateLoadedModel. rewrite Hsc.
      destruct Hch as [-> | ->]; reflexivity. }
    split; [exact Hv|].
    intros URL_parses setFromObject url enableBounds scale t.
    unfold AnimatedModel.loadEffect. rewrite Hv.
    cbn [ModelValidation.invalid ModelValidation.mc_isValid
         ModelValidation.mc_error negb].
    destruct url as [|[|a s]|[|]]; cbn [ModelValidation.validateModelUrl
      ModelValidation.isValid ModelValidation.error negb]; eauto.
    destruct (existsb _ _);
      cbn [ModelValidation.isValid ModelValidation.error negb]; eauto.
    destruct (URL_parses _);
      cbn [ModelValidation.isValid ModelValidation.error negb]; eauto.
  - intros c cs Hch. unfold ModelValidation.validateLoadedModel.
    rewrite Hsc, Hch. split; reflexivity.
Qed.

Lemma C9_empty_scene_rejected_witness :
  ModelValidation.mc_isValid
    (ModelValidation.validateLoadedModel
       (Some {| Three.scene := Some (Examples.group []);
                Three.animations := None |})) = false
  /\ ModelValidation.mc_isValid
       (ModelValidation.validateLoadedModel
          (Some {| Three.scene := Some (Examples.group [Examples.mesh 3]);
                   Three.animations := None |})) = true.
Proof.
  split.
  - pose proof (C9_empty_scene_rejected
                  {| Three.scene := Some (Examples.group []);
                     Three.animations := None |}
                  (Examples.group []) eq_refl) as [H _].
    destruct (H (or_intror eq_refl)) as [-> _]. reflexivity.
  - pose proof (C9_empty_scene_rejected
                  {| Three.scene := Some (Examples.group [Examples.mesh 3]);
                     Three.animations := None |}
                  (Examples.group [Examples.mesh 3]) eq_refl) as [_ H].
    exact (proj1 (H _ _ eq_refl)).
Defined.

(** ** Model URLs *)

Lemma append_String (a : ascii) (s t : string) :
  String a s +:+ t = String a (s +:+ t).
Proof. reflexivity. Qed.

Lemma startsWith_spec (s t : string) :
  Js.startsWith s t = true <-> exists post, s = t +:+ post.
Proof.
  revert s; induction t as [|b t IH]; intros s.
  - destruct s; simpl; split; eauto.
  - destruct s as [|a s]; simpl.
    + split; [discriminate | intros [post H]; discriminate].
    + destruct (Ascii.eqb_spec a b) as [->|Hne].
      * rewrite IH. split; intros [post H]; exists post.
        -- rewrite append_String. congruence.
        -- rewrite append_String in H. congruence.
      * split; [discriminate|].
        intros [post H]; rewrite append_String in H; congruence.
Qed.

Lemma includes_spec (s t : string) :
  Js.includes s t = true <-> exists pre post, s = pre +:+ t +:+ post.
Proof.
  induction s as [|a s IH].
  - cbn [Js.includes]. destruct (Js.startsWith "" t) eqn:E.
    + split; [intros _ | reflexivity].
      apply startsWith_spec in E as [post E]. exists "", post. exact E.
    + split; [discriminate|]. intros (pre & post & H).
      destruct pre; [|discriminate].
      assert (Js.startsWith "" t = true) by (apply startsWith_spec; eauto).
      congruence.
  - cbn [Js.includes]. destruct (Js.startsWith (String a s) t) eqn:E.
    + split; [intros _ | reflexivity].
      apply startsWith_spec in E as [post E]. exists "", post. exact E.
    + rewrite IH. split.
      * intros (pre & post & ->). exists (String a pre), post. reflexivity.
      * intros (pre & post & H). destruct pre as [|a' pre].
        -- assert (Js.startsWith (String a s) t = true)
             by (apply startsWith_spec; eauto).
           congruence.
        -- exists pre, post. rewrite append_String in H. congruence.
Qed.

(** C10: a URL that the platform parses is accepted as soon as its
    lower-cased text contains ".glb" or ".gltf" at any offset, and its
    reported type is "glb" whenever ".glb" occurs anywhere. *)
Theorem C10_extension_anywhere (URL_parses : string -> bool) (url : string) :
  URL_parses url = true ->
  ((exists pre post, Js.toLowerCase url = pre +:+ ".glb" +:+ post)
   \/ (exists pre post, Js.toLowerCase url = pre +:+ ".gltf" +:+ post)) ->
  ModelValidation.validateModelUrl URL_parses (ModelValidation.UrlString url)
  = {| ModelValidation.isValid := true;
       ModelValidation.error := None;
       ModelValidation.type := ModelValidation.getModelType url |}
  /\ ((exists pre post, Js.toLowerCase url = pre +:+ ".glb" +:+ post) ->
      ModelValidation.getModelType url = "glb")
  /\ (ModelValidation.getModelType url = "glb"
      \/ ModelValidation.getModelType url = "gltf").
Proof.
  intros Hparse Hext.
  assert (Hne : url <> "").
  { intros ->. destruct Hext as [(pre & post & H) | (pre & post & H)];
      destruct pre; discriminate. }
  assert (Hinc : Js.includes (Js.toLowerCase url) ".glb"
                 || Js.includes (Js.toLowerCase url) ".gltf" = true).
  { apply orb_true_iff.
    destruct Hext as [H | H]; [left | right]; apply includes_spec; exact H. }
  assert (Htruthy : Js.truthy url = true).
  { unfold Js.truthy. destruct (String.eqb_spec url ""); [contradiction | reflexivity]. }
  split; [|split].
  - destruct url as [|a s]; [contradiction|].
    cbn [ModelValidation.validateModelUrl ModelValidation.supportedExtensions
         existsb].
    rewrite orb_false_r, Hinc, Hparse. reflexivity.
  - intros H. apply includes_spec in H.
    unfold ModelValidation.getModelType. rewrite Htruthy, H. reflexivity.
  - unfold ModelValidation.getModelType. rewrite Htruthy. cbn [negb].
    apply orb_true_iff in Hinc as [-> | H]; [left; reflexivity|].
    destruct (Js.includes _ ".glb"); [left; reflexivity|].
    rewrite H. right; reflexivity.
Qed.

Lemma C10_extension_anywhere_witness :
  let parses := fun s => Js.startsWith s "https://" in
  let url := "https://cdn.example.com/chair.png?src=model.GLB&alt=a.gltf" in
  ModelValidation.isValid
    (ModelValidation.validateModelUrl parses (ModelValidation.UrlString url))
  = true
  /\ ModelValidation.type
       (ModelValidation.validateModelUrl parses (ModelValidation.UrlString url))
     = "glb".
Proof.
  cbn zeta.
  destruct (C10_extension_anywhere
              (fun s => Js.startsWith s "https://")
              "https://cdn.example.com/chair.png?src=model.GLB&alt=a.gltf")
    as (Hv & Hglb & _).
  - vm_compute; reflexivity.
  - left. exists "https://cdn.example.com/chair.png?src=model", "&alt=a.gltf".
    vm_compute; reflexivity.
  - rewrite Hv. cbn [ModelValidation.isValid ModelValidation.type].
    split; [reflexivity|]. apply Hglb.
    exists "https://cdn.example.com/chair.png?src=model", "&alt=a.gltf".
    vm_compute; reflexivity.
Defined.

(** ** Stepping through the clips *)

Lemma indexOfFrom_first (l : list string) (a : string) (i : nat) (k : Z) :
  l !! i = Some a ->
  (forall j, (j < i)%nat -> l !! j <> Some a) ->
  Js.indexOfFrom l a k = k + Z.of_nat i.
Proof.
  revert i k; induction l as [|y l IH]; intros i k Hi Hfirst; [discriminate|].
  cbn [Js.indexOfFrom]. destruct i as [|i].
  - injection Hi as ->. rewrite String.eqb_refl. lia.
  - destruct (String.eqb_spec y a) as [->|Hne].
    + exfalso. apply (Hfirst 0%nat); [lia | reflexivity].
    + rewrite (IH i (k + 1)); [lia | exact Hi |].
      intros j Hj. apply (Hfirst (S j)). lia.
Qed.

Lemma indexOfFrom_absent (l : list string) (a : string) (k : Z) :
  a ∉ l -> Js.indexOfFrom l a k = -1.
Proof.
  revert k; induction l as [|y l IH]; intros k Hnotin; [reflexivity|].
  cbn [Js.indexOfFrom]. destruct (String.eqb_spec y a) as [->|Hne].
  - exfalso. apply Hnotin. left.
  - apply IH. intros H. apply Hnotin. right. exact H.
Qed.

Lemma nth_of_nat {A} (l : list A) (i : nat) : Js.nth l (Z.of_nat i) = l !! i.
Proof.
  unfold Js.nth. destruct (Z.ltb_spec (Z.of_nat i) 0); [lia|].
  rewrite Nat2Z.id. reflexivity.
Qed.

Lemma last_lookup_pred {A} (l : list A) : last l = l !! (length l - 1)%nat.
Proof.
  rewrite last_lookup. f_equal. lia.
Qed.

(** C4: on a non-empty clip list, "next" moves from the position of the
    selection to the following one and from the last to index 0,
    "previous" to the preceding one and from index 0 to the last; on an
    empty list both do nothing; with a selection that is not in the list,
    "next" takes the first clip and "previous" the last. *)
Theorem C4_cycle_wraps (animations : list string)
    (st : AnimationControls.State) :
  (AnimationControls.handleNext [] st = (st, [])
   /\ AnimationControls.handlePrevious [] st = (st, []))
  /\ (forall (i : nat) (a : string),
        animations !! i = Some a ->
        (forall j, (j < i)%nat -> animations !! j <> Some a) ->
        AnimationControls.selectedAnimation st = Some a ->
        let n := length animations in
        let next := if (S i <? n)%nat then S i else 0%nat in
        let prev := if (i =? 0)%nat then (n - 1)%nat else (i - 1)%nat in
        is_Some (animations !! next) /\ is_Some (animations !! prev)
        /\ AnimationControls.handleNext animations st
           = AnimationControls.handleAnimationSelect (animations !! next) st
        /\ AnimationControls.handlePrevious animations st
           = AnimationControls.handleAnimationSelect (animations !! prev) st)
  /\ (animations <> [] ->
      (AnimationControls.selectedAnimation st = None
       \/ exists a, AnimationControls.selectedAnimation st = Some a
                    /\ a ∉ animations) ->
      is_Some (head animations) /\ is_Some (last animations)
      /\ AnimationControls.handleNext animations st
         = AnimationControls.handleAnimationSelect (head animations) st
      /\ AnimationControls.handlePrevious animations st
         = AnimationControls.handleAnimationSelect (last animations) st).
Proof.
  split; [split; reflexivity|]. split.
  - intros i a Hi Hfirst Hsel n next prev.
    assert (Hlt : (i < n)%nat) by (apply lookup_lt_Some in Hi; exact Hi).
    assert (Hidx : Js.indexOf animations (AnimationControls.selectedAnimation st)
                   = Z.of_nat i).
    { rewrite Hsel. cbn [Js.indexOf].
      rewrite (indexOfFrom_first animations a i 0 Hi Hfirst). lia. }
    assert (Hnext : (next < n)%nat).
    { subst next. destruct (Nat.ltb_spec (S i) n); lia. }
    assert (Hprev : (prev < n)%nat).
    { subst prev. destruct (Nat.eqb_spec i 0); lia. }
    split; [apply lookup_lt_is_Some; exact Hnext|].
    split; [apply lookup_lt_is_Some; exact Hprev|].
    unfold AnimationControls.handleNext, AnimationControls.handlePrevious.
    fold n. rewrite Hidx.
    destruct (Z.eqb_spec (Z.of_nat n) 0); [lia|].
    split; f_equal.
    + subst next.
      destruct (Z.leb_spec (Z.of_nat n - 1) (Z.of_nat i)),
               (Nat.ltb_spec (S i) n); try lia.
      * reflexivity.
      * replace (Z.of_nat i + 1) with (Z.of_nat (S i)) by lia.
        apply nth_of_nat.
    + subst prev.
      destruct (Z.leb_spec (Z.of_nat i) 0), (Nat.eqb_spec i 0); try lia.
      * replace (Z.of_nat n - 1) with (Z.of_nat (n - 1)) by lia.
        apply nth_of_nat.
      * replace (Z.of_nat i - 1) with (Z.of_nat (i - 1)) by lia.
        apply nth_of_nat.
  - intros Hne Hsel.
    assert (Hlen : (0 < length animations)%nat).
    { destruct animations; [contradiction | simpl; lia]. }
    assert (Hidx : Js.indexOf animations (AnimationControls.selectedAnimation st)
                   = -1).
    { destruct Hsel as [-> | (a & -> & Hnotin)]; [reflexivity|].
      apply indexOfFrom_absent. exact Hnotin. }
    split; [destruct animations; [contradiction | eauto]|].
    split; [rewrite last_lookup_pred; apply lookup_lt_is_Some; lia|].
    unfold AnimationControls.handleNext, AnimationControls.handlePrevious.
    rewrite Hidx.
    destruct (Z.eqb_spec (Z.of_nat (length animations)) 0); [lia|].
    split; f_equal.
    + destruct (Z.leb_spec (Z.of_nat (length animations) - 1) (-1)); [lia|].
      destruct animations; [contradiction | reflexivity].
    + cbn [Z.leb Z.compare].
      replace (Z.of_nat (length animations) - 1)
        with (Z.of_nat (length animations - 1)) by lia.
      rewrite nth_of_nat, last_lookup_pred. reflexivity.
Qed.

Lemma C4_cycle_wraps_witness :
  let st a := {| AnimationControls.selectedAnimation := a |} in
  fst (AnimationControls.handleNext ["a"; "b"; "c"] (st (Some "c")))
  = st (Some "a")
  /\ fst (AnimationControls.handlePrevious ["a"; "b"; "c"] (st (Some "a")))
     = st (Some "c")
  /\ fst (AnimationControls.handleNext ["a"; "b"; "c"] (st None))
     = st (Some "a")
  /\ fst (AnimationControls.handlePrevious ["a"; "b"; "c"] (st (Some "z")))
     = st (Some "c").
Proof.
  cbn zeta.
  pose proof (C4_cycle_wraps ["a"; "b"; "c"]
                {| AnimationControls.selectedAnimation := Some "c" |})
    as (_ & Hc & _).
  pose proof (C4_cycle_wraps ["a"; "b"; "c"]
                {| AnimationControls.selectedAnimation := Some "a" |})
    as (_ & Ha & _).
  pose proof (C4_cycle_wraps ["a"; "b"; "c"]
                {| AnimationControls.selectedAnimation := None |})
    as (_ & _ & Hnone).
  pose proof (C4_cycle_wraps ["a"; "b"; "c"]
                {| AnimationControls.selectedAnimation := Some "z" |})
    as (_ & _ & Hz).
  refine (conj _ (conj _ (conj _ _))).
  - destruct (Hc 2%nat "c" eq_refl) as (_ & _ & -> & _); [|reflexivity..].
    intros [|[|j]] Hj; [discriminate | discriminate | lia].
  - destruct (Ha 0%nat "a" eq_refl) as (_ & _ & _ & ->); [|reflexivity..].
    intros j Hj; lia.
  - destruct Hnone as (_ & _ & -> & _); [discriminate | left | ]; reflexivity.
  - destruct Hz as (_ & _ & _ & ->); [discriminate | | reflexivity].
    right. exists "z". split; [reflexivity|].
    intros H. repeat (apply elem_of_cons in H as [H | H]; [discriminate|]).
    apply elem_of_nil in H. exact H.
Defined.

(** ** Default animation on load *)

Lemma truthy_spec (s : string) : Js.truthy s = true <-> s <> "".
Proof.
  unfold Js.truthy. destruct (String.eqb_spec s "") as [->|Hne]; cbn [negb].
  - split; [discriminate | intros H; contradiction].
  - split; [intros _; exact Hne | reflexivity].
Qed.

Lemma arrayIncludes_spec (l : list string) (x : string) :
  Js.arrayIncludes l x = true <-> x ∈ l.
Proof.
  unfold Js.arrayIncludes. rewrite existsb_exists, list_elem_of_In.
  split.
  - intros (y & Hin & Heq). apply String.eqb_eq in Heq. congruence.
  - intros Hin. exists x. split; [exact Hin | apply String.eqb_refl].
Qed.

Lemma animNames_clipNames (clips : list Three.AnimationClip) :
  filter (fun name => Is_true (Js.truthy name)) (map Three.name clips)
  = Spec.clipNames (Some clips).
Proof.
  unfold Spec.clipNames. apply list_filter_iff. intros s.
  rewrite Is_true_true. apply truthy_spec.
Qed.

Lemma declaredAndLoaded_spec (animNames : list string) (d : option string) :
  ProductViewer.declaredAndLoaded animNames d = true
  <-> exists s, d = Some s /\ s <> "" /\ s ∈ animNames.
Proof.
  destruct d as [s|]; cbn [ProductViewer.declaredAndLoaded].
  - rewrite andb_true_iff, truthy_spec, arrayIncludes_spec. split.
    + intros [? ?]. eauto.
    + intros (s' & [= <-] & ? & ?). auto.
  - split; [discriminate | intros (s & ? & _); discriminate].
Qed.

Lemma declaredAndLoaded_nil (d : option string) :
  ProductViewer.declaredAndLoaded [] d = false.
Proof.
  destruct d as [s|]; [|reflexivity].
  cbn [ProductViewer.declaredAndLoaded Js.arrayIncludes existsb].
  apply andb_false_r.
Qed.

(** What a load does to the selection, from any state: the declared
    default when auto-play holds and the default is loaded, else the
    first clip when auto-play holds and a clip exists, else nothing. *)
Lemma handleModelLoad_selection setFromObject targetSize product sc clips
    complexity st :
  let gltf := {| Three.scene := Some sc; Three.animations := clips |} in
  let animNames := Spec.clipNames clips in
  exists st',
    ProductViewer.handleModelLoad setFromObject targetSize product gltf
      complexity st = Some st'
    /\ ProductViewer.availableAnimations st' = animNames
    /\ (ProductViewer.currentAnimation st', ProductViewer.playAnimations st')
       = if ProductViewer.autoPlayOf product then
           if ProductViewer.declaredAndLoaded animNames
                (ProductViewer.defaultAnimationOf product)
           then (ProductViewer.defaultAnimationOf product, true)
           else match animNames with
                | n :: _ => (Some n, true)
                | [] => (ProductViewer.currentAnimation st,
                         ProductViewer.playAnimations st)
                end
         else (ProductViewer.currentAnimation st,
               ProductViewer.playAnimations st).
Proof.
  cbn zeta. unfold ProductViewer.handleModelLoad, ProductViewer.normalizeModel.
  cbn [Three.scene Three.animations].
  destruct clips as [[|clip0 clips]|].
  - eexists. split; [reflexivity|]. split; [reflexivity|].
    cbn. rewrite declaredAndLoaded_nil.
    destruct (ProductViewer.autoPlayOf product); reflexivity.
  - rewrite animNames_clipNames.
    set (animNames := Spec.clipNames (Some (clip0 :: clips))).
    destruct (ProductViewer.autoPlayOf product).
    + destruct (ProductViewer.declaredAndLoaded animNames _).
      * eexists. split; [reflexivity|]. split; reflexivity.
      * destruct animNames as [|n l] eqn:E.
        -- eexists. split; [reflexivity|]. split; reflexivity.
        -- eexists. split; [reflexivity|]. split; reflexivity.
    + eexists. split; [reflexivity|]. split; reflexivity.
  - eexists. split; [reflexivity|]. split; [reflexivity|].
    cbn. rewrite declaredAndLoaded_nil.
    destruct (ProductViewer.autoPlayOf product); reflexivity.
Qed.




(** ** Playing a requested clip *)

Lemma useAnimations_fold_lookup (clips : list Three.AnimationClip)
    (m : gmap string Three.AnimationClip) (n : string) :
  is_Some (fold_left (fun actions clip => <[Three.name clip := clip]> actions)
                     clips m !! n)
  <-> n ∈ map Three.name clips \/ is_Some (m !! n).
Proof.
  revert m; induction clips as [|c clips IH]; intros m; cbn [fold_left map].
  - split; [auto | intros [H | H]; [apply elem_of_nil in H; contradiction | exact H]].
  - rewrite IH, lookup_insert_is_Some, elem_of_cons.
    destruct (decide (Three.name c = n)) as [Heq | Hne]; intuition congruence.
Qed.

Lemma useAnimations_lookup (clips : list Three.AnimationClip) (n : string) :
  is_Some ((AnimatedModel.useAnimations clips).1 !! n)
  <-> n ∈ (AnimatedModel.useAnimations clips).2.
Proof.
  unfold AnimatedModel.useAnimations. cbn [fst snd].
  rewrite useAnimations_fold_lookup, lookup_empty.
  split; [intros [H | [x H]]; [exact H | discriminate] | auto].
Qed.

Lemma getMember_is_Some (actions : gmap string Three.AnimationClip)
    (n : string) :
  is_Some (AnimatedModel.getMember actions n)
  <-> is_Some (actions !! n) \/ n ∈ AnimatedModel.objectPrototypeNames.
Proof.
  unfold AnimatedModel.getMember.
  destruct (actions !! n) as [clip|].
  - split; [intros _; left; eauto | intros _; eauto].
  - destruct (bool_decide_reflect (n ∈ AnimatedModel.objectPrototypeNames))
      as [Hin | Hnot].
    + split; [intros _; right; exact Hin | intros _; eauto].
    + split; [intros [m Hm]; discriminate|].
      intros [[c Hc] | Hin]; [discriminate | contradiction].
Qed.

Lemma getMember_own (actions : gmap string Three.AnimationClip) (n : string) :
  is_Some (actions !! n) ->
  exists clip, AnimatedModel.getMember actions n = Some (AnimatedModel.Action clip).
Proof.
  intros [clip Hclip]. exists clip.
  unfold AnimatedModel.getMember. rewrite Hclip. reflexivity.
Qed.

Lemma hasAction_spec (actions : gmap string Three.AnimationClip) (n : string) :
  AnimatedModel.hasAction actions (Some n) = true
  <-> n <> ""
      /\ (is_Some (actions !! n) \/ n ∈ AnimatedModel.objectPrototypeNames).
Proof.
  cbn [AnimatedModel.hasAction].
  rewrite andb_true_iff, truthy_spec, bool_decide_eq_true, getMember_is_Some.
  reflexivity.
Qed.

Lemma hasAction_own (actions : gmap string Three.AnimationClip) (n : string) :
  n <> "" -> is_Some (actions !! n) ->
  AnimatedModel.hasAction actions (Some n) = true.
Proof. intros Hn Hown. apply hasAction_spec. auto. Qed.

Lemma hasAction_absent (actions : gmap string Three.AnimationClip) (n : string) :
  actions !! n = None -> n ∉ AnimatedModel.objectPrototypeNames ->
  AnimatedModel.hasAction actions (Some n) = false.
Proof.
  intros Hnone Hnot.
  destruct (AnimatedModel.hasAction actions (Some n)) eqn:E; [|reflexivity].
  apply hasAction_spec in E as [_ [[c Hc] | Hin]]; [congruence | contradiction].
Qed.

(** None of the four fixed common names is a member that objects
    inherit. *)
Lemma common_names_not_inherited (n : string) :
  n ∈ ["idle"; "animation"; "action"; "default"] ->
  n ∉ AnimatedModel.objectPrototypeNames.
Proof.
  intros Hin Hinh. apply list_elem_of_In in Hinh.
  repeat (apply elem_of_cons in Hin as [-> | Hin];
          [cbn in Hinh; intuition discriminate|]).
  apply elem_of_nil in Hin. exact Hin.
Qed.

Lemma firstWithAction_Some actions (l : list (option string)) (n : string) :
  AnimatedModel.firstWithAction actions l = Some n ->
  Some n ∈ l /\ AnimatedModel.hasAction actions (Some n) = true.
Proof.
  induction l as [|y l IH]; cbn [AnimatedModel.firstWithAction]; [discriminate|].
  destruct (AnimatedModel.hasAction actions y) eqn:E.
  - intros ->. split; [left | exact E].
  - intros H. destruct (IH H) as [Hin Hhas]. split; [right; exact Hin | exact Hhas].
Qed.

Lemma firstWithAction_found actions (l : list (option string)) (x : string) :
  Some x ∈ l -> AnimatedModel.hasAction actions (Some x) = true ->
  exists n, AnimatedModel.firstWithAction actions l = Some n
            /\ AnimatedModel.hasAction actions (Some n) = true.
Proof.
  intros Hin Hx. induction l as [|y l IH]; [apply elem_of_nil in Hin; contradiction|].
  cbn [AnimatedModel.firstWithAction].
  destruct (AnimatedModel.hasAction actions y) eqn:E.
  - destruct y as [n|]; [eauto | discriminate].
  - apply IH. apply elem_of_cons in Hin as [Heq | Hin]; [|exact Hin].
    rewrite <- Heq in E. congruence.
Qed.

(** The name that the loop over the common names finds is the name of a
    loaded clip. *)
Lemma firstWithAction_common_loaded actions (names : list string) (n : string) :
  (forall m, is_Some (actions !! m) <-> m ∈ names) ->
  AnimatedModel.firstWithAction actions (AnimatedModel.commonNames names) = Some n ->
  n <> "" /\ n ∈ names.
Proof.
  intros Hlookup Hfirst.
  apply firstWithAction_Some in Hfirst as [Hin Hhas].
  apply hasAction_spec in Hhas as [Hn Hmember]. split; [exact Hn|].
  unfold AnimatedModel.commonNames in Hin.
  assert (Hcases : n ∈ ["idle"; "animation"; "action"; "default"]
                   \/ Js.nth names 0 = Some n).
  { rewrite !elem_of_cons, elem_of_nil in Hin.
    destruct Hin as [[= ->] | [[= ->] | [[= ->] | [[= ->] | [Heq | []]]]]];
      [left; apply list_elem_of_In; cbn; tauto ..|].
    right. congruence. }
  destruct Hcases as [Hfixed | Hnth].
  - destruct Hmember as [Hown | Hinh]; [apply Hlookup; exact Hown|].
    exfalso. exact (common_names_not_inherited n Hfixed Hinh).
  - destruct names as [|n0 names']; [discriminate|].
    injection Hnth as ->. left.
Qed.

(** The playback effect on a selection that is loaded. *)
Lemma playbackEffect_own actions (names : list string) (n : string) :
  names <> [] -> n <> "" -> is_Some (actions !! n) ->
  AnimatedModel.playbackEffect actions names (Some n) true
  = AnimatedModel.Plays n.
Proof.
  intros Hnames Hn Hown. unfold AnimatedModel.playbackEffect.
  destruct names as [|n0 names']; [contradiction|]. cbn [length].
  destruct (Z.eqb_spec (Z.of_nat (S (length names'))) 0); [lia|].
  destruct (Z.ltb_spec 0 (Z.of_nat (S (length names')))); [|lia].
  cbn [andb]. rewrite (hasAction_own actions n Hn Hown).
  rewrite (proj2 (truthy_spec n) Hn).
  destruct (getMember_own actions n Hown) as [clip ->]. reflexivity.
Qed.

(** The playback effect on a selection of which [actions] has no member:
    the first common name that is loaded is played. *)
Lemma playbackEffect_fallback actions (names : list string)
    (current : option string) :
  (forall m, is_Some (actions !! m) <-> m ∈ names) ->
  AnimatedModel.hasAction actions current = false ->
  AnimatedModel.playbackEffect actions names current true
  = match AnimatedModel.firstWithAction actions (AnimatedModel.commonNames names) with
    | Some n => AnimatedModel.Plays n
    | None => AnimatedModel.PlaysNothing
    end.
Proof.
  intros Hlookup Hhas. unfold AnimatedModel.playbackEffect. rewrite Hhas.
  destruct (AnimatedModel.firstWithAction actions (AnimatedModel.commonNames names))
    as [n|] eqn:Hfirst.
  - destruct (firstWithAction_common_loaded actions names n Hlookup Hfirst)
      as [Hn Hin].
    destruct names as [|n0 names']; [apply elem_of_nil in Hin; contradiction|].
    cbn [length].
    destruct (Z.eqb_spec (Z.of_nat (S (length names'))) 0); [lia|].
    destruct (Z.ltb_spec 0 (Z.of_nat (S (length names')))); [|lia].
    cbn [andb]. rewrite (proj2 (truthy_spec n) Hn).
    destruct (getMember_own actions n (proj2 (Hlookup n) Hin)) as [clip ->].
    reflexivity.
  - destruct (Z.of_nat (length names) =? 0); [reflexivity|].
    destruct (true && (0 <? Z.of_nat (length names))); reflexivity.
Qed.

(** C5: a request for a clip by name makes that name the selection and
    switches playback on, whatever was set before; the playback effect
    then plays the requested clip when it is loaded; when it is not
    loaded, and is not the name of a member that every object inherits
    (such as "constructor"), the effect plays in its place the first of
    "idle", "animation", "action", "default" and the first loaded clip
    that is loaded. *)
Theorem C5_requested_clip_or_fallback (clips : list Three.AnimationClip)
    (r : string) (st : ProductViewer.State) :
  r <> "" ->
  let actions := (AnimatedModel.useAnimations clips).1 in
  let names := (AnimatedModel.useAnimations clips).2 in
  let st' := ProductViewer.handleAnimationChange (Some r) st in
  let played :=
    AnimatedModel.playbackEffect actions names
      (ProductViewer.currentAnimation st') (ProductViewer.playAnimations st') in
  ProductViewer.currentAnimation st' = Some r
  /\ ProductViewer.playAnimations st' = true
  /\ (r ∈ names -> played = AnimatedModel.Plays r)
  /\ (r ∉ names -> r ∉ AnimatedModel.objectPrototypeNames ->
      played = match AnimatedModel.firstWithAction actions
                       (AnimatedModel.commonNames names) with
               | Some n => AnimatedModel.Plays n
               | None => AnimatedModel.PlaysNothing
               end
      /\ forall n0, head names = Some n0 -> n0 <> "" ->
           exists n, played = AnimatedModel.Plays n /\ n ∈ names /\ n <> r).
Proof.
  intros Hr. cbn zeta.
  set (actions := (AnimatedModel.useAnimations clips).1).
  set (names := (AnimatedModel.useAnimations clips).2).
  assert (Hlookup : forall n, is_Some (actions !! n) <-> n ∈ names)
    by (intros n; apply useAnimations_lookup).
  assert (Hst : ProductViewer.handleAnimationChange (Some r) st
                = ProductViewer.setPlayAnimations true
                    (ProductViewer.setCurrentAnimation (Some r) st)).
  { unfold ProductViewer.handleAnimationChange.
    rewrite (proj2 (truthy_spec r) Hr). reflexivity. }
  rewrite Hst.
  cbn [ProductViewer.currentAnimation ProductViewer.playAnimations
       ProductViewer.setPlayAnimations ProductViewer.setCurrentAnimation].
  split; [reflexivity|]. split; [reflexivity|]. split.
  - intros Hin. apply playbackEffect_own.
    + intros Hnil. rewrite Hnil in Hin. apply elem_of_nil in Hin. exact Hin.
    + exact Hr.
    + apply Hlookup. exact Hin.
  - intros Hnotin Hnotinh.
    assert (Hhas : AnimatedModel.hasAction actions (Some r) = false).
    { apply hasAction_absent; [|exact Hnotinh].
      destruct (actions !! r) as [c|] eqn:E; [|reflexivity].
      exfalso. apply Hnotin. apply Hlookup. eauto. }
    pose proof (playbackEffect_fallback actions names (Some r) Hlookup Hhas)
      as Hplayed.
    split; [exact Hplayed|].
    intros n0 Hhead Hn0. rewrite Hplayed.
    assert (Hin0 : n0 ∈ names).
    { destruct names as [|n names']; [discriminate|].
      injection Hhead as ->. left. }
    destruct (firstWithAction_found actions (AnimatedModel.commonNames names) n0)
      as (n & Hfirst & Hn).
    + unfold AnimatedModel.commonNames.
      replace (Js.nth names 0) with (Some n0)
        by (rewrite <- Hhead, head_lookup; reflexivity).
      do 4 right. left.
    + apply hasAction_own; [exact Hn0 | apply Hlookup; exact Hin0].
    + rewrite Hfirst. exists n. split; [reflexivity|].
      destruct (firstWithAction_common_loaded actions names n Hlookup Hfirst)
        as [_ Hin].
      split; [exact Hin | intros ->; contradiction].
Qed.

Lemma C5_requested_clip_or_fallback_witness :
  let clips := [Examples.clip "walk"; Examples.clip "wave"] in
  let actions := (AnimatedModel.useAnimations clips).1 in
  let names := (AnimatedModel.useAnimations clips).2 in
  let request r := ProductViewer.handleAnimationChange (Some r)
                     ProductViewer.initialState in
  AnimatedModel.playbackEffect actions names
    (ProductViewer.currentAnimation (request "wave"))
    (ProductViewer.playAnimations (request "wave"))
  = AnimatedModel.Plays "wave"
  /\ exists n,
       AnimatedModel.playbackEffect actions names
         (ProductViewer.currentAnimation (request "run"))
         (ProductViewer.playAnimations (request "run"))
       = AnimatedModel.Plays n
       /\ n ∈ names /\ n <> "run".
Proof.
  cbn zeta. refine (conj _ _).
  - apply (C5_requested_clip_or_fallback
             [Examples.clip "walk"; Examples.clip "wave"] "wave"
             ProductViewer.initialState).
    + discriminate.
    + vm_compute. right. left.
  - refine (proj2 (proj2 (proj2 (proj2
              (C5_requested_clip_or_fallback
                 [Examples.clip "walk"; Examples.clip "wave"] "run"
                 ProductViewer.initialState _))) _ _) "walk" _ _).
    + discriminate.
    + vm_compute. intros H.
      repeat (apply elem_of_cons in H as [H | H]; [discriminate|]).
      apply elem_of_nil in H. exact H.
    + intros H. apply list_elem_of_In in H. cbn in H. intuition discriminate.
    + reflexivity.
    + discriminate.
Defined.

(** C5, as first stated, fails: with only "walk" loaded, a request for
    "run" keeps "run" as the selection and plays "walk" in its place. *)
Lemma C5_absent_request_counterexample :
  let clips := [Examples.clip "walk"] in
  let actions := (AnimatedModel.useAnimations clips).1 in
  let names := (AnimatedModel.useAnimations clips).2 in
  let st' := ProductViewer.handleAnimationChange (Some "run")
               ProductViewer.initialState in
  ("run" ∉ names)
  /\ ProductViewer.currentAnimation st' <> None
  /\ AnimatedModel.playbackEffect actions names
       (ProductViewer.currentAnimation st') (ProductViewer.playAnimations st')
     <> AnimatedModel.PlaysNothing
  /\ AnimatedModel.playbackEffect actions names
       (ProductViewer.currentAnimation st') (ProductViewer.playAnimations st')
     = AnimatedModel.Plays "walk".
Proof.
  cbn zeta. refine (conj _ (conj _ (conj _ _))).
  - vm_compute. intros H.
    apply elem_of_cons in H as [H | H]; [discriminate|].
    apply elem_of_nil in H. exact H.
  - vm_compute. discriminate.
  - vm_compute. discriminate.
  - vm_compute. reflexivity.
Qed.

(** A request for a name that is no loaded clip but the name of a member
    that every object inherits finds that member, which has no [reset]:
    the effect ends in the exception; a clip of that name is played as
    any other. *)
Example playbackEffect_inherited_member :
  let played clips :=
    AnimatedModel.playbackEffect (AnimatedModel.useAnimations clips).1
      (AnimatedModel.useAnimations clips).2 (Some "constructor") true in
  played [Examples.clip "walk"] = AnimatedModel.Throws
  /\ played [Examples.clip "walk"; Examples.clip "constructor"]
     = AnimatedModel.Plays "constructor".
Proof. split; vm_compute; reflexivity. Qed.

(** ** Normalization *)

Lemma gt_spec (a b : Q) : Js.gt a b = true <-> (b < a)%Q.
Proof.
  unfold Js.gt. rewrite negb_true_iff. split.
  - intros H. apply Qnot_le_lt. intros Hle.
    apply Qle_bool_iff in Hle. congruence.
  - intros H. destruct (Qle_bool a b) eqn:E; [|reflexivity].
    apply Qle_bool_iff in E. exfalso. exact (Qlt_not_le _ _ H E).
Qed.

Lemma gt_false (a b : Q) : (a <= b)%Q -> Js.gt a b = false.
Proof.
  intros H. unfold Js.gt. apply Qle_bool_iff in H. rewrite H. reflexivity.
Qed.

Lemma max3_zero (a b c : Q) :
  (a == 0 -> b == 0 -> c == 0 -> Js.max3 a b c <= 0)%Q.
Proof.
  intros Ha Hb Hc. unfold Js.max3.
  apply Q.max_lub; [apply Q.max_lub|].
  - rewrite Ha. apply Qle_refl.
  - rewrite Hb. apply Qle_refl.
  - rewrite Hc. apply Qle_refl.
Qed.

Lemma Qmult_one_l (m : Q) : (1 * m)%Q = m.
Proof.
  destruct m as [n d]. unfold Qmult. cbn [Qnum Qden].
  rewrite Z.mul_1_l. reflexivity.
Qed.

Lemma Qdiv_pos (a b : Q) : (0 < a -> 0 < b -> 0 < a / b)%Q.
Proof.
  intros Ha Hb. unfold Qdiv.
  apply Qmult_lt_0_compat; [exact Ha | apply Qinv_lt_0_compat; exact Hb].
Qed.

(** C8: normalization is not idempotent on a model that is shown twice.
    The scene from (0,0,0) to (4,4,4), target size 3, shown in two viewers
    one after the other, each from its mount state: the load effect of
    the first showing leaves the scene moved and scaled to the extent 3.5,
    and [normalizeModel] measures 3.5 and answers the scale 3 / 3.5; the
    load effect of the second showing measures that scene, sets its scale
    back to 1, and [normalizeModel] measures 4 and answers the scale 3 / 4
    and another translation. *)
Theorem C8_second_showing_differs :
  let gltf := {| Three.scene := Some (Examples.group [Examples.mesh 3]);
                 Three.animations := None |} in
  let url := ModelValidation.UrlString "http://localhost:5000/models/chair.glb" in
  let show := SharedScene.show (fun _ => true) 3 None url gltf in
  let box := {| Three.min := Examples.vec 0 0 0;
                Three.max := Examples.vec 4 4 4 |} in
  exists s1 st1 c1 d1 s2 st2 c2 d2,
    show (SharedScene.fresh box) ProductViewer.initialState = (s1, Some st1)
    /\ show s1 ProductViewer.initialState = (s2, Some st2)
    /\ ProductViewer.modelInfo st1 = Some (c1, d1)
    /\ ProductViewer.modelInfo st2 = Some (c2, d2)
    /\ (Three.x (AnimatedModel.scene_scale (SharedScene.transform s1))
        == 35 # 40)%Q
    /\ (Three.x (AnimatedModel.scene_scale (SharedScene.transform s2)) == 1)%Q
    /\ (Three.x (ProductViewer.nd_originalSize d1) == 35 # 10)%Q
    /\ (Three.x (ProductViewer.nd_originalSize d2) == 4)%Q
    /\ (ProductViewer.normalizedScale st1 == 3 / (35 # 10))%Q
    /\ (ProductViewer.normalizedScale st2 == 3 / 4)%Q
    /\ ~ (ProductViewer.normalizedScale st1
          == ProductViewer.normalizedScale st2)%Q
    /\ (Three.x (ProductViewer.modelPosition st1) == (1 # 4) * (3 / (35 # 10)))%Q
    /\ (Three.x (ProductViewer.modelPosition st2) == - (9 # 4) * (3 / 4))%Q
    /\ ~ (Three.x (ProductViewer.modelPosition st1)
          == Three.x (ProductViewer.modelPosition st2))%Q.
Proof.
  cbn zeta. eexists _, _, _, _, _, _, _, _.
  split; [reflexivity|]. split; [reflexivity|].
  split; [reflexivity|]. split; [reflexivity|].
  split; [vm_compute; reflexivity|]. split; [vm_compute; reflexivity|].
  split; [vm_compute; reflexivity|]. split; [vm_compute; reflexivity|].
  split; [vm_compute; reflexivity|]. split; [vm_compute; reflexivity|].
  split; [intros H; vm_compute in H; discriminate|].
  split; [vm_compute; reflexivity|]. split; [vm_compute; reflexivity|].
  intros H; vm_compute in H; discriminate.
Qed.

(** C1: for a box with a positive largest extent, [normalizeModel] gives
    the scale targetSize / maxDim and the translation -center times that
    scale; a multiplier applied afterwards gives the scale
    (targetSize / maxDim) * multiplier and leaves the translation as it
    is; the scale is positive for a positive target size and multiplier.
    The fit of the model component sets the scale
    (3.5 / maxDim) * multiplier. *)
Theorem C1_normalize_scale_translation setFromObject
    (targetSize multiplier : Q) sc clips (st : ProductViewer.State)
    (t : AnimatedModel.SceneTransform) :
  let box := setFromObject sc in
  let center := Three.getCenter box in
  let size := Three.getSize box in
  let maxDim := Js.max3 (Three.x size) (Three.y size) (Three.z size) in
  (0 < maxDim)%Q ->
  exists st1 d,
    ProductViewer.normalizeModel setFromObject targetSize
      {| Three.scene := Some sc; Three.animations := clips |} st
    = Some (st1, d)
    /\ ProductViewer.nd_normalizedScale d = (targetSize / maxDim)%Q
    /\ ProductViewer.normalizedScale st1 = (targetSize / maxDim)%Q
    /\ ProductViewer.modelScale st1 = (targetSize / maxDim)%Q
    /\ ProductViewer.nd_centeredPosition d = ProductViewer.modelPosition st1
    /\ Spec.translationIs center (targetSize / maxDim)
         (ProductViewer.modelPosition st1)
    /\ (0 < targetSize -> 0 < ProductViewer.modelScale st1)%Q
    /\ (let st2 := ProductViewer.handleScaleChange multiplier st1 in
        ProductViewer.modelScale st2 = (targetSize / maxDim * multiplier)%Q
        /\ ProductViewer.modelPosition st2 = ProductViewer.modelPosition st1
        /\ (0 < targetSize -> 0 < multiplier ->
            0 < ProductViewer.modelScale st2)%Q)
    /\ (let t' := AnimatedModel.centerAndFit true multiplier box t in
        AnimatedModel.scene_scale t'
        = AnimatedModel.setScalar ((35 # 10) / maxDim * multiplier)%Q
        /\ (0 < multiplier -> 0 < (35 # 10) / maxDim * multiplier)%Q).
Proof.
  cbn zeta. intros Hpos.
  pose proof (proj2 (gt_spec _ _) Hpos) as Hgt.
  unfold ProductViewer.normalizeModel, AnimatedModel.centerAndFit.
  cbn [Three.scene]. rewrite Hgt.
  eexists _, _. split; [reflexivity|].
  cbn [ProductViewer.nd_normalizedScale ProductViewer.nd_centeredPosition
       ProductViewer.normalizedScale ProductViewer.modelScale
       ProductViewer.modelPosition ProductViewer.setModelScale
       ProductViewer.setModelPosition ProductViewer.setNormalizedScale
       ProductViewer.handleScaleChange AnimatedModel.scene_scale
       AnimatedModel.scene_position].
  repeat match goal with |- _ /\ _ => split end; try reflexivity.
  - unfold Spec.translationIs. cbn [Three.x Three.y Three.z].
    repeat split; reflexivity.
  - intros Ht. apply Qdiv_pos; assumption.
  - intros Ht Hm. apply Qmult_lt_0_compat; [apply Qdiv_pos|]; assumption.
  - intros Hm. apply Qmult_lt_0_compat; [apply Qdiv_pos|]; [reflexivity|..];
      assumption.
Qed.

Lemma C1_normalize_scale_translation_witness :
  exists st1 d,
    ProductViewer.normalizeModel (fun _ => Examples.cube) 3
      {| Three.scene := Some (Examples.group [Examples.mesh 3]);
         Three.animations := None |} ProductViewer.initialState
    = Some (st1, d)
    /\ (ProductViewer.modelScale st1 == 3 # 2)%Q
    /\ (ProductViewer.modelScale (ProductViewer.handleScaleChange 2 st1) == 3)%Q.
Proof.
  destruct (C1_normalize_scale_translation (fun _ => Examples.cube) 3 2
              (Examples.group [Examples.mesh 3]) None
              ProductViewer.initialState
              {| AnimatedModel.scene_position := Three.zero;
                 AnimatedModel.scene_scale := AnimatedModel.setScalar 1 |})
    as (st1 & d & Hrun & _ & _ & Hscale & _ & _ & _ & (Hscale2 & _) & _).
  - vm_compute. reflexivity.
  - exists st1, d. split; [exact Hrun|]. split.
    + rewrite Hscale. vm_compute. reflexivity.
    + rewrite Hscale2. vm_compute. reflexivity.
Defined.

(** C1, as first stated, fails: with the multiplier 2 on the box from
    (0,0,0) to (2,2,2), the viewer's translation is not -center times the
    scale, and neither is the position set by the model component. *)
Lemma C1_translation_counterexample :
  let center := Three.getCenter Examples.cube in
  (exists st1 d,
     ProductViewer.normalizeModel (fun _ => Examples.cube) 3
       {| Three.scene := Some (Examples.group [Examples.mesh 3]);
          Three.animations := None |} ProductViewer.initialState
     = Some (st1, d)
     /\ let st2 := ProductViewer.handleScaleChange 2 st1 in
        (ProductViewer.modelScale st2 == (3 / 2) * 2)%Q
        /\ ~ Spec.translationIs center (ProductViewer.modelScale st2)
               (ProductViewer.modelPosition st2))
  /\ (let t' := AnimatedModel.centerAndFit true 2 Examples.cube
                  {| AnimatedModel.scene_position := Three.zero;
                     AnimatedModel.scene_scale := AnimatedModel.setScalar 1 |} in
      (Three.x (AnimatedModel.scene_scale t') == (35 # 10) / 2 * 2)%Q
      /\ ~ Spec.translationIs center (Three.x (AnimatedModel.scene_scale t'))
             (AnimatedModel.scene_position t')).
Proof.
  cbn zeta. split.
  - eexists _, _. split; [reflexivity|]. split.
    + vm_compute. reflexivity.
    + intros (Hx & _). vm_compute in Hx. discriminate.
  - split.
    + vm_compute. reflexivity.
    + intros (Hx & _). vm_compute in Hx. discriminate.
Qed.

(** C3: for a box whose extents are all zero, [normalizeModel] returns
    without exception the scale 1, so that a multiplier applied to it
    gives the multiplier itself, and the translation -center, which is the
    origin when the box is empty; the model component leaves the scale of
    the scene as it is and sets the position -center. *)
Theorem C3_degenerate_box setFromObject (targetSize multiplier : Q) sc clips
    (st : ProductViewer.State) (t : AnimatedModel.SceneTransform) :
  let box := setFromObject sc in
  let center := Three.getCenter box in
  let size := Three.getSize box in
  (Three.x size == 0 /\ Three.y size == 0 /\ Three.z size == 0)%Q ->
  exists st1 d,
    ProductViewer.normalizeModel setFromObject targetSize
      {| Three.scene := Some sc; Three.animations := clips |} st
    = Some (st1, d)
    /\ ProductViewer.nd_normalizedScale d = 1%Q
    /\ ProductViewer.normalizedScale st1 = 1%Q
    /\ ProductViewer.modelScale st1 = 1%Q
    /\ ProductViewer.modelScale
         (ProductViewer.handleScaleChange multiplier st1) = multiplier
    /\ Spec.translationIs center 1 (ProductViewer.modelPosition st1)
    /\ (Three.isEmpty box = true ->
        ProductViewer.modelPosition st1 = Three.zero)
    /\ AnimatedModel.centerAndFit true multiplier box t
       = {| AnimatedModel.scene_position :=
              AnimatedModel.multiplyScalar center (-1);
            AnimatedModel.scene_scale := AnimatedModel.scene_scale t |}.
Proof.
  cbn zeta. intros (Hx & Hy & Hz).
  pose proof (gt_false _ _ (max3_zero _ _ _ Hx Hy Hz)) as Hgt.
  unfold ProductViewer.normalizeModel, AnimatedModel.centerAndFit.
  cbn [Three.scene]. rewrite Hgt.
  eexists _, _. split; [reflexivity|].
  cbn [ProductViewer.nd_normalizedScale ProductViewer.nd_centeredPosition
       ProductViewer.normalizedScale ProductViewer.modelScale
       ProductViewer.modelPosition ProductViewer.setModelScale
       ProductViewer.setModelPosition ProductViewer.setNormalizedScale
       ProductViewer.handleScaleChange AnimatedModel.scene_scale
       AnimatedModel.scene_position].
  repeat match goal with |- _ /\ _ => split end; try reflexivity.
  - apply Qmult_one_l.
  - unfold Spec.translationIs. cbn [Three.x Three.y Three.z].
    repeat split; reflexivity.
  - intros Hempty. unfold Three.getCenter. rewrite Hempty. reflexivity.
Qed.

Lemma C3_degenerate_box_witness :
  exists st1 d,
    ProductViewer.normalizeModel (fun _ => Examples.emptyBox) 3
      {| Three.scene := Some (Examples.group [Examples.group []]);
         Three.animations := None |} ProductViewer.initialState
    = Some (st1, d)
    /\ ProductViewer.modelScale
         (ProductViewer.handleScaleChange (5 # 2) st1) = (5 # 2)%Q
    /\ ProductViewer.modelPosition st1 = Three.zero.
Proof.
  destruct (C3_degenerate_box (fun _ => Examples.emptyBox) 3 (5 # 2)
              (Examples.group [Examples.group []]) None
              ProductViewer.initialState
              {| AnimatedModel.scene_position := Three.zero;
                 AnimatedModel.scene_scale := AnimatedModel.setScalar 1 |})
    as (st1 & d & Hrun & _ & _ & _ & Hscale & _ & Hpos & _).
  - vm_compute. repeat split; reflexivity.
  - exists st1, d. split; [exact Hrun|]. split; [exact Hscale|].
    apply Hpos. vm_compute. reflexivity.
Defined.

(** C3, as first stated, fails: for the box that is the single point
    (1,1,1) the translation is (-1,-1,-1), not the origin; and the model
    component with the multiplier 2 leaves the scale of the scene at 1. *)
Lemma C3_point_box_counterexample :
  let size := Three.getSize Examples.point in
  (Three.x size == 0 /\ Three.y size == 0 /\ Three.z size == 0)%Q
  /\ (exists st1 d,
        ProductViewer.normalizeModel (fun _ => Examples.point) 3
          {| Three.scene := Some (Examples.group [Examples.mesh 3]);
             Three.animations := None |} ProductViewer.initialState
        = Some (st1, d)
        /\ (Three.x (ProductViewer.modelPosition st1) == -1)%Q
        /\ ~ (Three.x (ProductViewer.modelPosition st1) == 0)%Q)
  /\ (let t' := AnimatedModel.centerAndFit true 2 Examples.point
                  {| AnimatedModel.scene_position := Three.zero;
                     AnimatedModel.scene_scale := AnimatedModel.setScalar 1 |} in
      ~ (Three.x (AnimatedModel.scene_position t') == 0)%Q
      /\ ~ (Three.x (AnimatedModel.scene_scale t') == 2)%Q).
Proof.
  cbn zeta. split; [|split].
  - vm_compute. repeat split; reflexivity.
  - eexists _, _. split; [reflexivity|]. split.
    + vm_compute. reflexivity.
    + intros H. vm_compute in H. discriminate.
  - split; intros H; vm_compute in H; discriminate.
Qed.

(** ** Trimming *)

Lemma trimStart_head (s : string) (c : ascii) (r : string) :
  JsString.trimStart s = String c r -> JsString.isSpace c = false.
Proof.
  induction s as [|a s IH]; cbn [JsString.trimStart]; [discriminate|].
  destruct (JsString.isSpace a) eqn:E; [exact IH|].
  intros [= <- <-]. exact E.
Qed.

Lemma trimEnd_head (c : ascii) (s : string) :
  JsString.isSpace c = false ->
  JsString.trimEnd (String c s) = String c (JsString.trimEnd s).
Proof. intros H. cbn [JsString.trimEnd]. rewrite H. reflexivity. Qed.

Lemma trimEnd_idem (s : string) :
  JsString.trimEnd (JsString.trimEnd s) = JsString.trimEnd s.
Proof.
  induction s as [|c s IH]; [reflexivity|].
  cbn [JsString.trimEnd].
  destruct (JsString.isSpace c) eqn:Ec; cbn [andb].
  - destruct (String.eqb_spec (JsString.trimEnd s) "") as [E|E]; [reflexivity|].
    cbn [JsString.trimEnd]. rewrite Ec, IH. cbn [andb].
    destruct (String.eqb_spec (JsString.trimEnd s) ""); [contradiction | reflexivity].
  - cbn [JsString.trimEnd]. rewrite Ec, IH. reflexivity.
Qed.

Lemma trimStart_fixed (s : string) :
  (forall c r, s = String c r -> JsString.isSpace c = false) ->
  JsString.trimStart s = s.
Proof.
  destruct s as [|c r]; [reflexivity|]. intros H.
  cbn [JsString.trimStart]. rewrite (H c r eq_refl). reflexivity.
Qed.

Lemma trim_head (s : string) (c : ascii) (r : string) :
  JsString.trim s = String c r -> JsString.isSpace c = false.
Proof.
  unfold JsString.trim. destruct (JsString.trimStart s) as [|a t] eqn:E;
    [discriminate|].
  pose proof (trimStart_head s a t E) as Ha.
  rewrite trimEnd_head by exact Ha. intros [= <- _]. exact Ha.
Qed.

Lemma trim_idem (s : string) : JsString.trim (JsString.trim s) = JsString.trim s.
Proof.
  unfold JsString.trim at 1.
  rewrite (trimStart_fixed (JsString.trim s)) by apply trim_head.
  unfold JsString.trim. apply trimEnd_idem.
Qed.

(** ** Sanitizing the model URL *)

Lemma includes_false (s t : string) :
  Js.includes s t = false <-> ~ (exists pre post, s = pre +:+ t +:+ post).
Proof.
  rewrite <- includes_spec. destruct (Js.includes s t); split; intros H;
    try reflexivity; try discriminate; congruence.
Qed.

(** X1: a URL that [sanitizeModelUrl] lets through is the trimmed input,
    has white space at neither end, contains neither "javascript:" nor
    "data:text/html", and, unless it is empty, is let through unchanged
    when sanitized again. *)
Theorem sanitizeModelUrl_accepts (url s : string) :
  ModelErrors.sanitizeModelUrl (Some url) = Some s ->
  s = JsString.trim url
  /\ JsString.trim s = s
  /\ ~ (exists pre post, s = pre +:+ "javascript:" +:+ post)
  /\ ~ (exists pre post, s = pre +:+ "data:text/html" +:+ post)
  /\ (s <> "" -> ModelErrors.sanitizeModelUrl (Some s) = Some s).
Proof.
  unfold ModelErrors.sanitizeModelUrl.
  destruct (Js.truthy url); cbn [negb]; [|discriminate].
  destruct (Js.includes (JsString.trim url) "javascript:") eqn:E1;
    [discriminate|].
  destruct (Js.includes (JsString.trim url) "data:text/html") eqn:E2;
    [discriminate|].
  cbn [orb]. intros [= <-].
  split; [reflexivity|]. split; [apply trim_idem|].
  split; [apply includes_false; exact E1|].
  split; [apply includes_false; exact E2|].
  intros Hne. rewrite (proj2 (truthy_spec _) Hne). cbn [negb].
  rewrite trim_idem, E1, E2. reflexivity.
Qed.

Lemma sanitizeModelUrl_accepts_witness :
  ModelErrors.sanitizeModelUrl (Some "  http://localhost:5000/models/chair.glb ")
  = Some "http://localhost:5000/models/chair.glb"
  /\ ModelErrors.sanitizeModelUrl (Some "http://localhost:5000/models/chair.glb")
     = Some "http://localhost:5000/models/chair.glb".
Proof.
  assert (H : ModelErrors.sanitizeModelUrl
                (Some "  http://localhost:5000/models/chair.glb ")
              = Some "http://localhost:5000/models/chair.glb")
    by (vm_compute; reflexivity).
  split; [exact H|].
  apply (sanitizeModelUrl_accepts _ _ H). discriminate.
Defined.

(** X2: when the URL is missing, blank, or contains "javascript:" or
    "data:text/html" after trimming, the load effect run on the sanitized
    URL fails with "Model URL is required", whatever model was loaded. *)
Theorem unsafe_url_reported_missing (url : option string) :
  (url = None
   \/ exists u, url = Some u
        /\ (JsString.trim u = ""
            \/ (exists pre post, JsString.trim u = pre +:+ "javascript:" +:+ post)
            \/ (exists pre post, JsString.trim u = pre +:+ "data:text/html" +:+ post))) ->
  forall URL_parses setFromObject gltf enableBounds scale t,
    AnimatedModel.loadEffect URL_parses setFromObject
      (ModelErrors.urlArg (ModelErrors.sanitizeModelUrl url))
      gltf enableBounds scale t
    = AnimatedModel.Failed (Some "Model URL is required").
Proof.
  intros H URL_parses setFromObject gltf enableBounds scale t.
  assert (Harg : ModelErrors.urlArg (ModelErrors.sanitizeModelUrl url)
                 = ModelValidation.UrlNull
                 \/ ModelErrors.urlArg (ModelErrors.sanitizeModelUrl url)
                    = ModelValidation.UrlString "").
  { destruct H as [-> | (u & -> & H)]; [left; reflexivity|].
    unfold ModelErrors.sanitizeModelUrl.
    destruct (Js.truthy u); cbn [negb]; [|left; reflexivity].
    destruct H as [H | [H | H]].
    - rewrite H. right. reflexivity.
    - apply includes_spec in H. rewrite H. left. reflexivity.
    - apply includes_spec in H. rewrite H, orb_true_r. left. reflexivity. }
  unfold AnimatedModel.loadEffect. destruct Harg as [-> | ->]; reflexivity.
Qed.

Lemma unsafe_url_reported_missing_witness :
  AnimatedModel.loadEffect (fun _ => true) (fun _ => Examples.cube)
    (ModelErrors.urlArg
       (ModelErrors.sanitizeModelUrl (Some " javascript:alert(1)//a.glb")))
    (Some {| Three.scene := Some (Examples.group [Examples.mesh 3]);
             Three.animations := None |})
    true 1
    {| AnimatedModel.scene_position := Three.zero;
       AnimatedModel.scene_scale := AnimatedModel.setScalar 1 |}
  = AnimatedModel.Failed (Some "Model URL is required").
Proof.
  apply unsafe_url_reported_missing.
  right. exists " javascript:alert(1)//a.glb". split; [reflexivity|].
  right. left. exists "", "alert(1)//a.glb". vm_compute. reflexivity.
Defined.

(** ** What the load effect reports *)

(** X3: the load effect reports a loaded model only for a URL string that
    the platform parses and that contains ".glb" or ".gltf", and a model
    whose scene has a child; the complexity it hands over is the
    analyzer's, its tier is "low", "medium" or "high", and its mesh count
    is the one validation found. *)
Theorem loadEffect_loaded_sound URL_parses setFromObject url gltf
    enableBounds scale t t' c :
  AnimatedModel.loadEffect URL_parses setFromObject url gltf enableBounds
    scale t = AnimatedModel.Loaded t' c ->
  exists s g sc ch chs,
    url = ModelValidation.UrlString s
    /\ URL_parses s = true
    /\ ((exists pre post, Js.toLowerCase s = pre +:+ ".glb" +:+ post)
        \/ (exists pre post, Js.toLowerCase s = pre +:+ ".gltf" +:+ post))
    /\ gltf = Some g /\ Three.scene g = Some sc
    /\ Three.children sc = Some (ch :: chs)
    /\ c = ModelValidation.analyzeModelComplexity gltf
    /\ (ModelValidation.complexity c = "low"
        \/ ModelValidation.complexity c = "medium"
        \/ ModelValidation.complexity c = "high")
    /\ ModelValidation.mc_meshCount (ModelValidation.validateLoadedModel gltf)
       = Some (ModelValidation.meshCount c)
    /\ t' = AnimatedModel.centerAndFit enableBounds scale (setFromObject sc) t.
Proof.
  unfold AnimatedModel.loadEffect.
  destruct url as [|s|[|]];
    cbn [ModelValidation.validateModelUrl ModelValidation.isValid negb];
    try discriminate.
  destruct s as [|a s];
    cbn [ModelValidation.validateModelUrl ModelValidation.isValid negb];
    [discriminate|].
  cbn [ModelValidation.supportedExtensions existsb].
  rewrite orb_false_r.
  destruct (Js.includes (Js.toLowerCase (String a s)) ".glb") eqn:Eglb;
    destruct (Js.includes (Js.toLowerCase (String a s)) ".gltf") eqn:Egltf;
    cbn [orb negb ModelValidation.isValid]; try discriminate.
  all: destruct (URL_parses (String a s)) eqn:Eparse;
    cbn [negb ModelValidation.isValid]; try discriminate.
  all: destruct gltf as [[[sc|] anims]|]; try discriminate.
  all: unfold ModelValidation.validateLoadedModel; cbn [Three.scene].
  all: destruct (Three.children sc) as [[|ch chs]|] eqn:Ech;
    cbn [ModelValidation.invalid ModelValidation.mc_isValid negb];
    try discriminate.
  all: intros [= <- <-].
  all: exists (String a s), {| Three.scene := Some sc; Three.animations := anims |},
         sc, ch, chs.
  all: repeat match goal with |- _ /\ _ => split end; try reflexivity;
    try assumption;
    try (left; apply includes_spec; assumption);
    try (right; apply includes_spec; assumption).
  all: cbn [ModelValidation.analyzeModelComplexity ModelValidation.complexity];
    destruct ((50000 <? _) || _); [right; right; reflexivity|];
    destruct ((10000 <? _) || _); [right; left; reflexivity | left; reflexivity].
Qed.

Lemma loadEffect_loaded_sound_witness :
  exists c,
    AnimatedModel.loadEffect (fun s => Js.startsWith s "http://")
      (fun _ => Examples.cube)
      (ModelValidation.UrlString "http://localhost:5000/models/chair.glb")
      (Some {| Three.scene := Some (Examples.group [Examples.mesh 3]);
               Three.animations := None |})
      false 1
      {| AnimatedModel.scene_position := Three.zero;
         AnimatedModel.scene_scale := AnimatedModel.setScalar 1 |}
    = AnimatedModel.Loaded
        {| AnimatedModel.scene_position := Three.zero;
           AnimatedModel.scene_scale := AnimatedModel.setScalar 1 |} c
    /\ ModelValidation.complexity c = "low".
Proof.
  eexists. split; [vm_compute; reflexivity|].
  destruct (loadEffect_loaded_sound (fun s => Js.startsWith s "http://")
              (fun _ => Examples.cube)
              (ModelValidation.UrlString "http://localhost:5000/models/chair.glb")
              (Some {| Three.scene := Some (Examples.group [Examples.mesh 3]);
                       Three.animations := None |})
              false 1
              {| AnimatedModel.scene_position := Three.zero;
                 AnimatedModel.scene_scale := AnimatedModel.setScalar 1 |}
              _ _ eq_refl)
    as (s & g & sc & ch & chs & _ & _ & _ & _ & _ & _ & _ & _ & _ & _).
  vm_compute. reflexivity.
Defined.

(** X4: when the load effect fails, the text shown for its error is
    "Invalid 3D model format..." for an unsupported extension and for a
    URL that does not parse, and "Failed to load 3D model: " followed by
    the validation message in every other case. *)
Theorem load_failure_message URL_parses setFromObject url gltf enableBounds
    scale t e :
  AnimatedModel.loadEffect URL_parses setFromObject url gltf enableBounds
    scale t = AnimatedModel.Failed e ->
  exists msg,
    e = Some msg
    /\ (((msg = "Model must be one of these formats: .glb, .gltf"
          \/ msg = "Invalid URL format")
         /\ ModelErrors.getModelErrorMessage (Some (ModelErrors.newError msg))
            = "Invalid 3D model format. Please ensure the file is a valid GLB or GLTF file.")
        \/ ((msg = "Model URL is required"
             \/ msg = "Model URL must be a string"
             \/ msg = "Model missing scene object"
             \/ msg = "Model scene has no children (empty model)")
            /\ ModelErrors.getModelErrorMessage (Some (ModelErrors.newError msg))
               = "Failed to load 3D model: " +:+ msg)).
Proof.
  unfold AnimatedModel.loadEffect.
  destruct url as [|s|[|]];
    cbn [ModelValidation.validateModelUrl ModelValidation.isValid
         ModelValidation.error negb].
  - intros [= <-]. eexists. split; [reflexivity|]. right.
    split; [auto | vm_compute; reflexivity].
  - destruct s as [|a s];
      cbn [ModelValidation.validateModelUrl ModelValidation.isValid
           ModelValidation.error negb].
    + intros [= <-]. eexists. split; [reflexivity|]. right.
      split; [auto | vm_compute; reflexivity].
    + destruct (existsb _ _);
        cbn [negb ModelValidation.isValid ModelValidation.error].
      * destruct (URL_parses _);
          cbn [negb ModelValidation.isValid ModelValidation.error].
        -- destruct gltf as [[[sc|] anims]|]; [| |discriminate].
           ++ unfold ModelValidation.validateLoadedModel. cbn [Three.scene].
              destruct (Three.children sc) as [[|ch chs]|];
                cbn [ModelValidation.invalid ModelValidation.mc_isValid
                     ModelValidation.mc_error negb]; try discriminate.
              all: intros [= <-]; eexists; split; [reflexivity|]; right;
                split; [auto | vm_compute; reflexivity].
           ++ cbn. intros [= <-]. eexists. split; [reflexivity|]. right.
              split; [auto | vm_compute; reflexivity].
        -- intros [= <-]. eexists. split; [reflexivity|]. left.
           split; [auto | vm_compute; reflexivity].
      * intros [= <-]. eexists. split; [reflexivity|]. left.
        split; [auto | vm_compute; reflexivity].
  - intros [= <-]. eexists. split; [reflexivity|]. right.
    split; [auto | vm_compute; reflexivity].
  - intros [= <-]. eexists. split; [reflexivity|]. right.
    split; [auto | vm_compute; reflexivity].
Qed.

Lemma load_failure_message_witness :
  ModelErrors.getModelErrorMessage
    (Some (ModelErrors.newError "Model must be one of these formats: .glb, .gltf"))
  = "Invalid 3D model format. Please ensure the file is a valid GLB or GLTF file.".
Proof.
  destruct (load_failure_message (fun _ => true) (fun _ => Examples.cube)
              (ModelValidation.UrlString "http://localhost:5000/models/chair.obj")
              None true 1
              {| AnimatedModel.scene_position := Three.zero;
                 AnimatedModel.scene_scale := AnimatedModel.setScalar 1 |}
              (Some "Model must be one of these formats: .glb, .gltf")
              eq_refl)
    as (msg & [= <-] & [[_ H] | [_ H]]); [exact H|].
  vm_compute. reflexivity.
Defined.

(** ** URL validation, both ways *)

(** X5: [validateModelUrl] answers valid exactly for a string that the
    platform parses and whose lower-cased text contains ".glb" or ".gltf";
    a valid answer has no error and the type "glb" or "gltf", an invalid
    one has an error and one of four failure types. *)
Theorem validateModelUrl_valid_iff (URL_parses : string -> bool)
    (url : ModelValidation.UrlArg) :
  let v := ModelValidation.validateModelUrl URL_parses url in
  (ModelValidation.isValid v = true <->
   exists s, url = ModelValidation.UrlString s /\ URL_parses s = true
     /\ ((exists pre post, Js.toLowerCase s = pre +:+ ".glb" +:+ post)
         \/ (exists pre post, Js.toLowerCase s = pre +:+ ".gltf" +:+ post)))
  /\ (ModelValidation.isValid v = true ->
      ModelValidation.error v = None
      /\ (ModelValidation.type v = "glb" \/ ModelValidation.type v = "gltf"))
  /\ (ModelValidation.isValid v = false ->
      is_Some (ModelValidation.error v)
      /\ (ModelValidation.type v = "missing_url"
          \/ ModelValidation.type v = "invalid_type"
          \/ ModelValidation.type v = "unsupported_format"
          \/ ModelValidation.type v = "invalid_url")).
Proof.
  cbn zeta.
  destruct url as [|s|[|]];
    cbn [ModelValidation.validateModelUrl ModelValidation.isValid
         ModelValidation.error ModelValidation.type].
  1,3,4: split;
    [split; [discriminate | intros (s' & Hs & _); discriminate]|];
    split; [discriminate | intros _; split; [eauto | auto]].
  destruct s as [|a s];
    cbn [ModelValidation.validateModelUrl ModelValidation.isValid
         ModelValidation.error ModelValidation.type].
  { split; [split; [discriminate|]|].
    - intros (s' & [= <-] & _ & [(pre & post & H) | (pre & post & H)]);
        destruct pre; discriminate.
    - split; [discriminate | intros _; split; [eauto | auto]]. }
  cbn [ModelValidation.supportedExtensions existsb]. rewrite orb_false_r.
  set (u := String a s).
  assert (Htruthy : Js.truthy u = true) by reflexivity.
  destruct (Js.includes (Js.toLowerCase u) ".glb") eqn:Eglb;
    destruct (Js.includes (Js.toLowerCase u) ".gltf") eqn:Egltf;
    cbn [orb negb ModelValidation.isValid ModelValidation.error
         ModelValidation.type];
    destruct (URL_parses u) eqn:Eparse;
    cbn [negb ModelValidation.isValid ModelValidation.error
         ModelValidation.type].
  all: unfold ModelValidation.getModelType; rewrite ?Htruthy; cbn [negb];
    rewrite ?Eglb, ?Egltf.
  all: split; [split|split].
  all: try discriminate; try (intros _; split; [eauto | auto]; fail).
  all: try (intros _; exists u; split; [reflexivity|]; split; [exact Eparse|];
            first [left; apply includes_spec; assumption
                  | right; apply includes_spec; assumption]).
  all: try (intros (s' & [= <-] & Hp & _); fold u in Hp; congruence).
  all: intros (s' & [= <-] & _ & [H | H]); fold u in H;
    apply includes_spec in H; congruence.
Qed.

Lemma validateModelUrl_valid_iff_witness :
  ModelValidation.type
    (ModelValidation.validateModelUrl (fun s => Js.startsWith s "http://")
       (ModelValidation.UrlString "http://localhost:5000/models/Robot.GLTF"))
  = "gltf".
Proof.
  destruct (validateModelUrl_valid_iff (fun s => Js.startsWith s "http://")
              (ModelValidation.UrlString "http://localhost:5000/models/Robot.GLTF"))
    as (_ & H & _).
  destruct (H eq_refl) as [_ [Hglb | Hgltf]]; [|exact Hgltf].
  vm_compute in Hglb. discriminate.
Defined.

(** ** What the analyzer counts *)

Lemma drawCount_not_mesh (o : Three.Object3D) :
  Three.type o <> "Mesh" -> Spec.drawCount o = 0.
Proof.
  intros H. unfold Spec.drawCount.
  destruct (String.eqb_spec (Three.type o) "Mesh"); [contradiction | reflexivity].
Qed.

Lemma Qfloor_third (d : Z) : Qfloor (inject_Z d / 3) = d / 3.
Proof. symmetry. apply (Zdiv_Qdiv d 3). Qed.

Lemma counts_bounds (l : list Three.Object3D) :
  Forall (fun n => 0 <= Spec.drawCount n) l ->
  let T := Spec.list_sum (map (fun n => Qfloor (inject_Z (Spec.drawCount n) / 3)) l) in
  let D := Spec.list_sum (map Spec.drawCount l) in
  let M := Z.of_nat (length (filter (fun n => Three.type n = "Mesh") l)) in
  0 <= T /\ 3 * T <= D /\ D <= 3 * T + 2 * M.
Proof.
  induction 1 as [|n l Hn _ IH]; cbn zeta in *.
  - unfold Spec.list_sum. simpl. lia.
  - rewrite !map_cons, !list_sum_cons, filter_cons, Qfloor_third.
    pose proof (Z.div_mod (Spec.drawCount n) 3 ltac:(lia)) as Hdm.
    pose proof (Z.mod_pos_bound (Spec.drawCount n) 3 ltac:(lia)) as Hmod.
    destruct (decide (Three.type n = "Mesh")) as [Hm | Hm].
    + cbn [length]. rewrite Nat2Z.inj_succ. lia.
    + rewrite (drawCount_not_mesh n Hm) in *.
      change (0 / 3) with 0. lia.
Qed.

(** X6: in a scene without a node of type "Mesh" the analyzer finds no
    mesh and no triangle and answers "low", whatever geometry the nodes
    carry (a skinned mesh has another type). *)
Theorem no_mesh_type_counts_nothing (sc : Three.Object3D)
    (anims : option (list Three.AnimationClip)) :
  Forall (fun n => Three.type n <> "Mesh") (Spec.nodes sc) ->
  let r := ModelValidation.analyzeModelComplexity
             (Some {| Three.scene := Some sc; Three.animations := anims |}) in
  ModelValidation.meshCount r = 0
  /\ ModelValidation.triangleCount r = 0
  /\ ModelValidation.complexity r = "low".
Proof.
  intros Hnone. cbn zeta.
  cbn [ModelValidation.analyzeModelComplexity ModelValidation.meshCount
       ModelValidation.triangleCount ModelValidation.complexity].
  assert (Hm : ModelValidation.countMeshes sc = 0).
  { rewrite countMeshes_spec. unfold Spec.meshCount.
    induction Hnone as [|n l Hn _ IH]; [reflexivity|].
    rewrite filter_cons, decide_False by exact Hn. exact IH. }
  assert (Ht : ModelValidation.countTriangles sc = 0).
  { rewrite countTriangles_spec. unfold Spec.triangleCount.
    induction Hnone as [|n l Hn _ IH]; [reflexivity|].
    rewrite map_cons, list_sum_cons, IH, (drawCount_not_mesh n Hn).
    reflexivity. }
  rewrite Hm, Ht. repeat split; reflexivity.
Qed.

Lemma no_mesh_type_counts_nothing_witness :
  let skinned :=
    Three.mkObject3D "SkinnedMesh"
      (Some {| Three.index := Some {| Three.count := 300000 |};
               Three.attributes := None |}) (Some []) in
  ModelValidation.complexity
    (ModelValidation.analyzeModelComplexity
       (Some {| Three.scene := Some (Examples.group [skinned]);
                Three.animations := None |})) = "low".
Proof.
  cbn zeta.
  apply (no_mesh_type_counts_nothing
           (Examples.group
              [Three.mkObject3D "SkinnedMesh"
                 (Some {| Three.index := Some {| Three.count := 300000 |};
                          Three.attributes := None |}) (Some [])]) None).
  repeat constructor; discriminate.
Defined.

(** X7: the mesh count lies between 0 and the number of nodes; with
    buffer counts that are not negative, three times the triangle count
    is at most the number of drawn vertices, and falls short of it by at
    most two per mesh. *)
Theorem counts_within_bounds (sc : Three.Object3D) :
  Forall (fun n => 0 <= Spec.drawCount n) (Spec.nodes sc) ->
  let vertices := Spec.list_sum (map Spec.drawCount (Spec.nodes sc)) in
  0 <= ModelValidation.countMeshes sc <= Z.of_nat (length (Spec.nodes sc))
  /\ 0 <= ModelValidation.countTriangles sc
  /\ 3 * ModelValidation.countTriangles sc <= vertices
  /\ vertices <= 3 * ModelValidation.countTriangles sc
                 + 2 * ModelValidation.countMeshes sc.
Proof.
  intros Hpos. cbn zeta.
  rewrite countMeshes_spec, countTriangles_spec.
  unfold Spec.meshCount, Spec.triangleCount.
  pose proof (counts_bounds (Spec.nodes sc) Hpos) as H. cbn zeta in H.
  pose proof (length_filter (fun n => Three.type n = "Mesh") (Spec.nodes sc)).
  lia.
Qed.

Lemma counts_within_bounds_witness :
  let sc := Examples.group [Examples.mesh 5; Examples.rawMesh 7] in
  3 * ModelValidation.countTriangles sc <= 12
  /\ 12 <= 3 * ModelValidation.countTriangles sc
           + 2 * ModelValidation.countMeshes sc.
Proof.
  cbn zeta.
  destruct (counts_within_bounds
              (Examples.group [Examples.mesh 5; Examples.rawMesh 7]))
    as (_ & _ & H1 & H2).
  - repeat constructor; vm_compute; discriminate.
  - split; [exact H1 | exact H2].
Defined.

(** ** What normalization achieves *)



(** ** The control handlers *)

Lemma handle_keeps autoRotate (e : ViewerControls.Event)
    (v : ProductViewer.State * ViewerControls.Settings) :
  let v' := ViewerControls.handle autoRotate e v in
  ProductViewer.normalizedScale (fst v') = ProductViewer.normalizedScale (fst v)
  /\ ProductViewer.modelPosition (fst v') = ProductViewer.modelPosition (fst v)
  /\ ProductViewer.modelInfo (fst v') = ProductViewer.modelInfo (fst v)
  /\ ProductViewer.availableAnimations (fst v')
     = ProductViewer.availableAnimations (fst v)
  /\ ProductViewer.isLoading (fst v') = ProductViewer.isLoading (fst v)
  /\ ProductViewer.error (fst v') = ProductViewer.error (fst v).
Proof.
  destruct v as [st se].
  destruct e as [| | | | | | | | |[n|]|]; cbn; try (repeat split; reflexivity).
  unfold ProductViewer.handleAnimationChange.
  destruct (Js.truthy n); repeat split; reflexivity.
Qed.

Lemma run_snoc autoRotate events e v :
  ViewerControls.run autoRotate (events ++ [e]) v
  = ViewerControls.handle autoRotate e (ViewerControls.run autoRotate events v).
Proof. unfold ViewerControls.run. rewrite fold_left_app. reflexivity. Qed.

Lemma run_keeps autoRotate events v :
  let v' := ViewerControls.run autoRotate events v in
  ProductViewer.normalizedScale (fst v') = ProductViewer.normalizedScale (fst v)
  /\ ProductViewer.modelPosition (fst v') = ProductViewer.modelPosition (fst v)
  /\ ProductViewer.modelInfo (fst v') = ProductViewer.modelInfo (fst v)
  /\ ProductViewer.availableAnimations (fst v')
     = ProductViewer.availableAnimations (fst v)
  /\ ProductViewer.isLoading (fst v') = ProductViewer.isLoading (fst v)
  /\ ProductViewer.error (fst v') = ProductViewer.error (fst v).
Proof.
  cbn zeta. revert v. induction events as [|e events IH]; intros v.
  - repeat split; reflexivity.
  - change (ViewerControls.run autoRotate (e :: events) v)
      with (ViewerControls.run autoRotate events
              (ViewerControls.handle autoRotate e v)).
    destruct (IH (ViewerControls.handle autoRotate e v))
      as (H1 & H2 & H3 & H4 & H5 & H6).
    destruct (handle_keeps autoRotate e v) as (K1 & K2 & K3 & K4 & K5 & K6).
    cbn zeta in *. repeat split; congruence.
Qed.

(** X9: whatever the user does through the controls, the normalized
    scale, the model position, the model info, the clip list, the loading
    flag and the error stay as the load left them; a scale change after
    any such history sets the scale to the normalized scale times the
    given factor, and a reset sets it back to the normalized scale and
    the settings, the animation speed apart, to their defaults. *)
Theorem controls_never_move_the_model autoRotate
    (events : list ViewerControls.Event) (st : ProductViewer.State)
    (se : ViewerControls.Settings) :
  let v := ViewerControls.run autoRotate events (st, se) in
  (ProductViewer.normalizedScale (fst v) = ProductViewer.normalizedScale st
   /\ ProductViewer.modelPosition (fst v) = ProductViewer.modelPosition st
   /\ ProductViewer.modelInfo (fst v) = ProductViewer.modelInfo st
   /\ ProductViewer.availableAnimations (fst v)
      = ProductViewer.availableAnimations st
   /\ ProductViewer.isLoading (fst v) = ProductViewer.isLoading st
   /\ ProductViewer.error (fst v) = ProductViewer.error st)
  /\ (forall m,
        ProductViewer.modelScale
          (fst (ViewerControls.run autoRotate
                  (events ++ [ViewerControls.ScaleChange m]) (st, se)))
        = (ProductViewer.normalizedScale st * m)%Q)
  /\ (let r := ViewerControls.run autoRotate
                 (events ++ [ViewerControls.ResetModel]) (st, se) in
      ProductViewer.modelScale (fst r) = ProductViewer.normalizedScale st
      /\ ViewerControls.wireframeMode (snd r) = false
      /\ ViewerControls.autoRotateEnabled (snd r) = autoRotate
      /\ ViewerControls.rotationSpeed (snd r) = (1 # 100)%Q
      /\ ViewerControls.environment (snd r) = "studio"
      /\ ViewerControls.quality (snd r) = "medium"
      /\ ViewerControls.animationSpeed (snd r)
         = ViewerControls.animationSpeed (snd v)).
Proof.
  cbn zeta.
  pose proof (run_keeps autoRotate events (st, se)) as Hkeep.
  cbn zeta in Hkeep. cbn [fst] in Hkeep.
  split; [exact Hkeep|]. destruct Hkeep as (Hn & _).
  split.
  - intros m. rewrite run_snoc.
    destruct (ViewerControls.run autoRotate events (st, se)) as [st' se'].
    cbn in *. rewrite Hn. reflexivity.
  - rewrite run_snoc.
    destruct (ViewerControls.run autoRotate events (st, se)) as [st' se'].
    cbn in *. rewrite Hn. repeat split; reflexivity.
Qed.

(** ** Auto-play plays what it selects *)

Lemma playbackEffect_loaded (clips : list Three.AnimationClip) (n : string) :
  n <> "" -> n ∈ (AnimatedModel.useAnimations clips).2 ->
  AnimatedModel.playbackEffect (AnimatedModel.useAnimations clips).1
    (AnimatedModel.useAnimations clips).2 (Some n) true
  = AnimatedModel.Plays n.
Proof.
  intros Hn Hin. apply playbackEffect_own.
  - intros Hnil. rewrite Hnil in Hin. apply elem_of_nil in Hin. exact Hin.
  - exact Hn.
  - apply useAnimations_lookup. exact Hin.
Qed.

Lemma clipNames_loaded (clips : list Three.AnimationClip) (n : string) :
  n ∈ Spec.clipNames (Some clips) ->
  n <> "" /\ n ∈ (AnimatedModel.useAnimations clips).2.
Proof.
  unfold Spec.clipNames. cbn [default AnimatedModel.useAnimations snd].
  rewrite list_elem_of_filter. auto.
Qed.

Lemma handleModelLoad_flags setFromObject targetSize product gltf complexity
    st st' :
  ProductViewer.handleModelLoad setFromObject targetSize product gltf
    complexity st = Some st' ->
  ProductViewer.isLoading st' = false /\ ProductViewer.error st' = None.
Proof.
  unfold ProductViewer.handleModelLoad, ProductViewer.normalizeModel.
  destruct (Three.scene gltf); [|discriminate].
  destruct (Three.animations gltf) as [[|clip0 clips]|].
  - intros [= <-]. split; reflexivity.
  - destruct (ProductViewer.autoPlayOf product).
    + destruct (ProductViewer.declaredAndLoaded _ _).
      * intros [= <-]. split; reflexivity.
      * destruct (0 <? _); intros [= <-]; split; reflexivity.
    + intros [= <-]. split; reflexivity.
  - intros [= <-]. split; reflexivity.
Qed.

(** X10: when the product asks for auto-play and the model has a clip
    with a name, a load ends with the loading flag off, no error, and a
    selected clip that is among the available animations; the playback
    effect then plays exactly that clip, whatever was selected before. *)
Theorem autoplay_plays_selected_clip setFromObject targetSize product sc
    (clips : list Three.AnimationClip) complexity (st : ProductViewer.State) :
  ProductViewer.autoPlayOf product = true ->
  Spec.clipNames (Some clips) <> [] ->
  exists st' n,
    ProductViewer.handleModelLoad setFromObject targetSize product
      {| Three.scene := Some sc; Three.animations := Some clips |}
      complexity st = Some st'
    /\ ProductViewer.isLoading st' = false
    /\ ProductViewer.error st' = None
    /\ ProductViewer.currentAnimation st' = Some n
    /\ ProductViewer.playAnimations st' = true
    /\ n ∈ ProductViewer.availableAnimations st'
    /\ AnimatedModel.playbackEffect (AnimatedModel.useAnimations clips).1
         (AnimatedModel.useAnimations clips).2
         (ProductViewer.currentAnimation st')
         (ProductViewer.playAnimations st') = AnimatedModel.Plays n.
Proof.
  intros Hauto Hne.
  destruct (handleModelLoad_selection setFromObject targetSize product sc
              (Some clips) complexity st) as (st' & Hload & Havail & Hsel).
  cbn zeta in Hload, Havail, Hsel. rewrite Hauto in Hsel.
  destruct (handleModelLoad_flags _ _ _ _ _ _ _ Hload) as [Hl He].
  assert (Hn : exists n, ProductViewer.currentAnimation st' = Some n
                         /\ ProductViewer.playAnimations st' = true
                         /\ n ∈ Spec.clipNames (Some clips)).
  { destruct (ProductViewer.declaredAndLoaded _ _) eqn:E.
    - apply declaredAndLoaded_spec in E as (s & Hs & _ & Hin).
      rewrite Hs in Hsel. injection Hsel as -> ->. eauto.
    - destruct (Spec.clipNames (Some clips)) as [|n l]; [contradiction|].
      injection Hsel as -> ->. exists n. repeat split. left. }
  destruct Hn as (n & Hcur & Hplay & Hin).
  exists st', n. rewrite Hcur, Hplay, Havail.
  repeat split; try assumption.
  destruct (clipNames_loaded clips n Hin) as [Hn Hnames].
  apply playbackEffect_loaded; assumption.
Qed.

Lemma autoplay_plays_selected_clip_witness :
  exists st',
    ProductViewer.handleModelLoad (fun _ => Examples.cube) 3
      (Some {| ProductViewer.model3d := Some "/models/chair.glb";
               ProductViewer.animations :=
                 Some {| ProductViewer.available := ["rotate"];
                         ProductViewer.defaultAnimation := Some "rotate";
                         ProductViewer.autoPlay := true |} |})
      {| Three.scene := Some (Examples.group [Examples.mesh 3]);
         Three.animations := Some [Examples.clip "idle"; Examples.clip "rotate"] |}
      (ModelValidation.analyzeModelComplexity None)
      ProductViewer.initialState = Some st'
    /\ ProductViewer.currentAnimation st' = Some "rotate".
Proof.
  destruct (autoplay_plays_selected_clip (fun _ => Examples.cube) 3
              (Some {| ProductViewer.model3d := Some "/models/chair.glb";
                       ProductViewer.animations :=
                         Some {| ProductViewer.available := ["rotate"];
                                 ProductViewer.defaultAnimation := Some "rotate";
                                 ProductViewer.autoPlay := true |} |})
              (Examples.group [Examples.mesh 3])
              [Examples.clip "idle"; Examples.clip "rotate"]
              (ModelValidation.analyzeModelComplexity None)
              ProductViewer.initialState)
    as (st' & n & Hload & _).
  - reflexivity.
  - vm_compute. discriminate.
  - exists st'. split; [exact Hload|].
    vm_compute in Hload. injection Hload as <-. reflexivity.
Defined.

(** ** Cycling through the clips *)

Lemma indexOfFrom_range (l : list string) (x : string) (k : Z) :
  Js.indexOfFrom l x k = -1
  \/ k <= Js.indexOfFrom l x k < k + Z.of_nat (length l).
Proof.
  revert k; induction l as [|y l IH]; intros k; [left; reflexivity|].
  cbn [Js.indexOfFrom length]. destruct (String.eqb y x).
  - right. lia.
  - destruct (IH (k + 1)) as [-> | H]; [left; reflexivity | right; lia].
Qed.

Lemma indexOf_range (l : list string) (x : option string) :
  -1 <= Js.indexOf l x < Z.of_nat (length l).
Proof.
  destruct x as [s|]; cbn [Js.indexOf]; [|lia].
  destruct (indexOfFrom_range l s 0); lia.
Qed.

Lemma nth_in_range {A} (l : list A) (i : Z) :
  0 <= i < Z.of_nat (length l) -> exists a, Js.nth l i = Some a /\ a ∈ l.
Proof.
  intros Hi. unfold Js.nth. destruct (Z.ltb_spec i 0); [lia|].
  destruct (lookup_lt_is_Some_2 l (Z.to_nat i)) as [a Ha]; [lia|].
  exists a. split; [exact Ha|]. apply list_elem_of_lookup. eauto.
Qed.

Lemma step_selects_member (animations : list string)
    (st : AnimationControls.State) :
  animations <> [] ->
  (exists n, n ∈ animations
     /\ AnimationControls.handleNext animations st
        = AnimationControls.handleAnimationSelect (Some n) st)
  /\ (exists n, n ∈ animations
        /\ AnimationControls.handlePrevious animations st
           = AnimationControls.handleAnimationSelect (Some n) st).
Proof.
  intros Hne.
  assert (Hlen : (0 < length animations)%nat)
    by (destruct animations; [contradiction | simpl; lia]).
  pose proof (indexOf_range animations (AnimationControls.selectedAnimation st))
    as Hidx.
  unfold AnimationControls.handleNext, AnimationControls.handlePrevious.
  destruct (Z.eqb_spec (Z.of_nat (length animations)) 0); [lia|].
  split.
  - destruct (Z.leb_spec (Z.of_nat (length animations) - 1)
                (Js.indexOf animations (AnimationControls.selectedAnimation st))).
    + destruct (nth_in_range animations 0) as (a & -> & Ha); [lia | eauto].
    + destruct (nth_in_range animations
                  (Js.indexOf animations
                     (AnimationControls.selectedAnimation st) + 1))
        as (a & -> & Ha); [lia | eauto].
  - destruct (Z.leb_spec
                (Js.indexOf animations (AnimationControls.selectedAnimation st)) 0).
    + destruct (nth_in_range animations (Z.of_nat (length animations) - 1))
        as (a & -> & Ha); [lia | eauto].
    + destruct (nth_in_range animations
                  (Js.indexOf animations
                     (AnimationControls.selectedAnimation st) - 1))
        as (a & -> & Ha); [lia | eauto].
Qed.

Lemma indexOf_NoDup (l : list string) (i : nat) (a : string) :
  NoDup l -> l !! i = Some a -> Js.indexOf l (Some a) = Z.of_nat i.
Proof.
  intros Hnd Hi. cbn [Js.indexOf].
  rewrite (indexOfFrom_first l a i 0 Hi); [lia|].
  intros j Hj Hja.
  pose proof (NoDup_lookup l i j a Hnd Hi Hja). lia.
Qed.

Lemma handleNext_NoDup (l : list string) (i : nat) (a : string)
    (st : AnimationControls.State) :
  NoDup l -> l !! i = Some a ->
  AnimationControls.selectedAnimation st = Some a ->
  AnimationControls.handleNext l st
  = AnimationControls.handleAnimationSelect (l !! (S i mod length l)%nat) st.
Proof.
  intros Hnd Hi Hsel.
  pose proof (lookup_lt_Some _ _ _ Hi) as Hlt.
  unfold AnimationControls.handleNext.
  rewrite Hsel, (indexOf_NoDup l i a Hnd Hi).
  destruct (Z.eqb_spec (Z.of_nat (length l)) 0); [lia|]. f_equal.
  destruct (Z.leb_spec (Z.of_nat (length l) - 1) (Z.of_nat i)).
  - replace (S i) with (length l) by lia.
    rewrite Nat.Div0.mod_same. reflexivity.
  - rewrite Nat.mod_small by lia.
    replace (Z.of_nat i + 1) with (Z.of_nat (S i)) by lia. apply nth_of_nat.
Qed.

Lemma handlePrevious_NoDup (l : list string) (i : nat) (a : string)
    (st : AnimationControls.State) :
  NoDup l -> l !! i = Some a ->
  AnimationControls.selectedAnimation st = Some a ->
  AnimationControls.handlePrevious l st
  = AnimationControls.handleAnimationSelect
      (l !! ((i + (length l - 1)) mod length l)%nat) st.
Proof.
  intros Hnd Hi Hsel.
  pose proof (lookup_lt_Some _ _ _ Hi) as Hlt.
  unfold AnimationControls.handlePrevious.
  rewrite Hsel, (indexOf_NoDup l i a Hnd Hi).
  destruct (Z.eqb_spec (Z.of_nat (length l)) 0); [lia|]. f_equal.
  destruct (Z.leb_spec (Z.of_nat i) 0).
  - replace i with 0%nat by lia. rewrite Nat.add_0_l, Nat.mod_small by lia.
    replace (Z.of_nat (length l) - 1) with (Z.of_nat (length l - 1)) by lia.
    apply nth_of_nat.
  - replace (i + (length l - 1))%nat with ((i - 1) + 1 * length l)%nat by lia.
    rewrite Nat.Div0.mod_add, Nat.mod_small by lia.
    replace (Z.of_nat i - 1) with (Z.of_nat (i - 1)) by lia. apply nth_of_nat.
Qed.

(** X11: on a clip list without repeated names and with the selection in
    it, "next" followed by "previous" returns to the selection, and so
    does "previous" followed by "next". *)
Theorem next_previous_inverse (animations : list string) (a : string)
    (st : AnimationControls.State) :
  NoDup animations -> a ∈ animations ->
  AnimationControls.selectedAnimation st = Some a ->
  AnimationControls.selectedAnimation
    (fst (AnimationControls.handlePrevious animations
            (fst (AnimationControls.handleNext animations st)))) = Some a
  /\ AnimationControls.selectedAnimation
       (fst (AnimationControls.handleNext animations
               (fst (AnimationControls.handlePrevious animations st)))) = Some a.
Proof.
  intros Hnd Hin Hsel.
  apply list_elem_of_lookup in Hin as [i Hi].
  pose proof (lookup_lt_Some _ _ _ Hi) as Hlt.
  set (n := length animations) in *.
  split.
  - rewrite (handleNext_NoDup animations i a st Hnd Hi Hsel). fold n.
    destruct (lookup_lt_is_Some_2 animations (S i mod n)) as [b Hb];
      [apply Nat.mod_upper_bound; lia|].
    rewrite Hb. cbn [AnimationControls.handleAnimationSelect fst].
    rewrite (handlePrevious_NoDup animations (S i mod n) b
               {| AnimationControls.selectedAnimation := Some b |} Hnd Hb eq_refl).
    cbn [AnimationControls.handleAnimationSelect fst
         AnimationControls.selectedAnimation]. fold n.
    rewrite Nat.Div0.add_mod_idemp_l.
    replace (S i + (n - 1))%nat with (i + 1 * n)%nat by lia.
    rewrite Nat.Div0.mod_add, Nat.mod_small by lia. exact Hi.
  - rewrite (handlePrevious_NoDup animations i a st Hnd Hi Hsel). fold n.
    destruct (lookup_lt_is_Some_2 animations ((i + (n - 1)) mod n)) as [b Hb];
      [apply Nat.mod_upper_bound; lia|].
    rewrite Hb. cbn [AnimationControls.handleAnimationSelect fst].
    rewrite (handleNext_NoDup animations ((i + (n - 1)) mod n) b
               {| AnimationControls.selectedAnimation := Some b |} Hnd Hb eq_refl).
    cbn [AnimationControls.handleAnimationSelect fst
         AnimationControls.selectedAnimation]. fold n.
    replace (S ((i + (n - 1)) mod n)) with (((i + (n - 1)) mod n) + 1)%nat by lia.
    rewrite Nat.Div0.add_mod_idemp_l.
    replace (i + (n - 1) + 1)%nat with (i + 1 * n)%nat by lia.
    rewrite Nat.Div0.mod_add, Nat.mod_small by lia. exact Hi.
Qed.

Lemma next_previous_inverse_witness :
  AnimationControls.selectedAnimation
    (fst (AnimationControls.handlePrevious ["a"; "b"; "c"]
            (fst (AnimationControls.handleNext ["a"; "b"; "c"]
                    {| AnimationControls.selectedAnimation := Some "c" |}))))
  = Some "c".
Proof.
  apply (next_previous_inverse ["a"; "b"; "c"] "c").
  - repeat (constructor; [intros H;
      repeat (apply elem_of_cons in H as [H | H]; [discriminate|]);
      apply elem_of_nil in H; exact H|]).
    constructor.
  - do 2 right. left.
  - reflexivity.
Defined.

(** X12: on a clip list without repeated names, pressing "next" k times
    from the clip at index i selects the clip at index (i + k) modulo the
    length; as many presses as there are clips return to the start. *)
Theorem next_steps_around (animations : list string) (i k : nat) (a : string)
    (st : AnimationControls.State) :
  NoDup animations -> animations !! i = Some a ->
  AnimationControls.selectedAnimation st = Some a ->
  let press s := fst (AnimationControls.handleNext animations s) in
  AnimationControls.selectedAnimation (Nat.iter k press st)
  = animations !! ((i + k) mod length animations)%nat
  /\ AnimationControls.selectedAnimation (Nat.iter (length animations) press st)
     = Some a.
Proof.
  intros Hnd Hi Hsel. cbn zeta.
  pose proof (lookup_lt_Some _ _ _ Hi) as Hlt.
  set (n := length animations) in *.
  set (press := fun s => fst (AnimationControls.handleNext animations s)).
  assert (Hk : forall k, AnimationControls.selectedAnimation (Nat.iter k press st)
                         = animations !! ((i + k) mod n)%nat).
  { clear k. induction k as [|k IH].
    - change (Nat.iter 0 press st) with st.
      rewrite Nat.add_0_r, Nat.mod_small by lia.
      rewrite Hsel, Hi. reflexivity.
    - change (Nat.iter (S k) press st) with (press (Nat.iter k press st)).
      destruct (lookup_lt_is_Some_2 animations ((i + k) mod n)) as [b Hb];
        [apply Nat.mod_upper_bound; lia|].
      rewrite Hb in IH. unfold press at 1.
      rewrite (handleNext_NoDup animations ((i + k) mod n) b _ Hnd Hb IH).
      cbn [AnimationControls.handleAnimationSelect fst
           AnimationControls.selectedAnimation]. fold n.
      f_equal.
      replace (S ((i + k) mod n)) with (((i + k) mod n) + 1)%nat by lia.
      rewrite Nat.Div0.add_mod_idemp_l. f_equal. lia. }
  split; [apply Hk|].
  rewrite Hk. replace (i + n)%nat with (i + 1 * n)%nat by lia.
  rewrite Nat.Div0.mod_add, Nat.mod_small by lia. exact Hi.
Qed.

Lemma next_steps_around_witness :
  AnimationControls.selectedAnimation
    (Nat.iter 5 (fun s => fst (AnimationControls.handleNext ["a"; "b"; "c"] s))
       {| AnimationControls.selectedAnimation := Some "b" |})
  = Some "a".
Proof.
  apply (next_steps_around ["a"; "b"; "c"] 1 5 "b").
  - repeat (constructor; [intros H;
      repeat (apply elem_of_cons in H as [H | H]; [discriminate|]);
      apply elem_of_nil in H; exact H|]).
    constructor.
  - reflexivity.
  - reflexivity.
Defined.

(** X13: with the clip names of a loaded model as the list of the
    controls, "next" and "previous" select a clip of the list, report it
    to the viewer, which makes it the current animation and switches
    playback on, and the playback effect plays exactly that clip. *)
Theorem step_plays_selected_clip (clips : list Three.AnimationClip)
    (cst : AnimationControls.State) (st : ProductViewer.State) :
  let animations := Spec.clipNames (Some clips) in
  animations <> [] ->
  forall step,
    (step = AnimationControls.handleNext animations cst
     \/ step = AnimationControls.handlePrevious animations cst) ->
    let st' := ViewerControls.dispatchAll (snd step) st in
    exists n,
      n ∈ animations
      /\ AnimationControls.selectedAnimation (fst step) = Some n
      /\ ProductViewer.currentAnimation st' = Some n
      /\ ProductViewer.playAnimations st' = true
      /\ AnimatedModel.playbackEffect (AnimatedModel.useAnimations clips).1
           (AnimatedModel.useAnimations clips).2
           (ProductViewer.currentAnimation st')
           (ProductViewer.playAnimations st') = AnimatedModel.Plays n.
Proof.
  cbn zeta. intros Hne step Hstep.
  destruct (step_selects_member (Spec.clipNames (Some clips)) cst Hne)
    as [(n & Hin & Hnext) (m & Hinm & Hprev)].
  assert (Hsel : exists n, n ∈ Spec.clipNames (Some clips)
            /\ step = AnimationControls.handleAnimationSelect (Some n) cst).
  { destruct Hstep as [-> | ->]; eauto. }
  clear n Hin Hnext m Hinm Hprev.
  destruct Hsel as (n & Hin & ->).
  destruct (clipNames_loaded clips n Hin) as [Hn Hnames].
  exists n. split; [exact Hin|]. split; [reflexivity|].
  cbn [AnimationControls.handleAnimationSelect snd ViewerControls.dispatchAll
       fold_left ViewerControls.dispatch].
  unfold ProductViewer.handleAnimationChange.
  rewrite (proj2 (truthy_spec n) Hn).
  cbn [ProductViewer.currentAnimation ProductViewer.playAnimations
       ProductViewer.setPlayAnimations ProductViewer.setCurrentAnimation].
  split; [reflexivity|]. split; [reflexivity|].
  apply playbackEffect_loaded; assumption.
Qed.

Lemma step_plays_selected_clip_witness :
  let clips := [Examples.clip "walk"; Examples.clip ""; Examples.clip "run"] in
  let step := AnimationControls.handleNext (Spec.clipNames (Some clips))
                {| AnimationControls.selectedAnimation := Some "walk" |} in
  exists n,
    AnimationControls.selectedAnimation (fst step) = Some n
    /\ ProductViewer.currentAnimation
         (ViewerControls.dispatchAll (snd step) ProductViewer.initialState)
       = Some n.
Proof.
  cbn zeta.
  destruct (step_plays_selected_clip
              [Examples.clip "walk"; Examples.clip ""; Examples.clip "run"]
              {| AnimationControls.selectedAnimation := Some "walk" |}
              ProductViewer.initialState)
    with (step := AnimationControls.handleNext
                    (Spec.clipNames
                       (Some [Examples.clip "walk"; Examples.clip "";
                              Examples.clip "run"]))
                    {| AnimationControls.selectedAnimation := Some "walk" |})
    as (n & _ & Hsel & Hcur & _).
  - vm_compute. discriminate.
  - left. reflexivity.
  - exists n. split; [exact Hsel | exact Hcur].
Defined.

(** X14: after the stop button nothing is selected in the controls or in
    the viewer, playback is off, the playback effect plays nothing
    whatever clips are loaded, and the restart button does nothing; from a
    selected clip that is loaded, the restart button makes the playback
    effect play that clip even when playback was off. *)
Theorem stop_silences_restart_replays (clips : list Three.AnimationClip)
    (cst : AnimationControls.State) (st : ProductViewer.State) :
  (let stopped := AnimationPanel.stop cst in
   let st' := ViewerControls.dispatchAll (snd stopped) st in
   AnimationControls.selectedAnimation (fst stopped) = None
   /\ ProductViewer.currentAnimation st' = None
   /\ ProductViewer.playAnimations st' = false
   /\ AnimatedModel.playbackEffect (AnimatedModel.useAnimations clips).1
        (AnimatedModel.useAnimations clips).2
        (ProductViewer.currentAnimation st')
        (ProductViewer.playAnimations st') = AnimatedModel.PlaysNothing
   /\ AnimationPanel.restart (fst stopped) = (fst stopped, []))
  /\ (forall s, AnimationControls.selectedAnimation cst = Some s ->
        s <> "" -> s ∈ (AnimatedModel.useAnimations clips).2 ->
        let st' := ViewerControls.dispatchAll
                     (snd (AnimationPanel.restart cst)) st in
        fst (AnimationPanel.restart cst) = cst
        /\ AnimatedModel.playbackEffect (AnimatedModel.useAnimations clips).1
             (AnimatedModel.useAnimations clips).2
             (ProductViewer.currentAnimation st')
             (ProductViewer.playAnimations st') = AnimatedModel.Plays s).
Proof.
  split.
  - cbn. repeat split; try reflexivity.
    unfold AnimatedModel.playbackEffect.
    destruct (Z.of_nat _ =? 0); reflexivity.
  - intros s Hsel Hs Hin. cbn zeta. unfold AnimationPanel.restart.
    rewrite Hsel, (proj2 (truthy_spec s) Hs).
    cbn [fst snd ViewerControls.dispatchAll fold_left ViewerControls.dispatch].
    unfold ProductViewer.handleAnimationChange, ProductViewer.handleAnimationToggle.
    rewrite (proj2 (truthy_spec s) Hs).
    cbn [ProductViewer.currentAnimation ProductViewer.playAnimations
         ProductViewer.setPlayAnimations ProductViewer.setCurrentAnimation].
    split; [reflexivity|]. apply playbackEffect_loaded; assumption.
Qed.

Lemma stop_silences_restart_replays_witness :
  let clips := [Examples.clip "walk"; Examples.clip "run"] in
  let st' := ViewerControls.dispatchAll
               (snd (AnimationPanel.restart
                       {| AnimationControls.selectedAnimation := Some "run" |}))
               ProductViewer.initialState in
  AnimatedModel.playbackEffect (AnimatedModel.useAnimations clips).1
    (AnimatedModel.useAnimations clips).2
    (ProductViewer.currentAnimation st') (ProductViewer.playAnimations st')
  = AnimatedModel.Plays "run".
Proof.
  cbn zeta.
  destruct (stop_silences_restart_replays
              [Examples.clip "walk"; Examples.clip "run"]
              {| AnimationControls.selectedAnimation := Some "run" |}
              ProductViewer.initialState) as [_ H].
  apply (H "run"); [reflexivity | discriminate|].
  vm_compute. right. left.
Defined.

(** ** Strings put together *)

Lemma append_assoc_s (a b c : string) : (a +:+ b) +:+ c = a +:+ (b +:+ c).
Proof.
  induction a as [|x a IH]; [reflexivity|].
  rewrite !append_String, IH. reflexivity.
Qed.

Lemma length_append_s (a b : string) :
  String.length (a +:+ b) = (String.length a + String.length b)%nat.
Proof.
  induction a as [|x a IH]; [reflexivity|].
  rewrite append_String. cbn [String.length]. rewrite IH. reflexivity.
Qed.

Lemma drop_append (t post : string) :
  JsString.drop (String.length t) (t +:+ post) = post.
Proof.
  induction t as [|x t IH]; [destruct post; reflexivity|].
  rewrite append_String. cbn [String.length JsString.drop]. exact IH.
Qed.

Lemma toLowerCase_append (a b : string) :
  Js.toLowerCase (a +:+ b) = Js.toLowerCase a +:+ Js.toLowerCase b.
Proof.
  induction a as [|x a IH]; [reflexivity|].
  rewrite append_String. cbn [Js.toLowerCase]. rewrite IH, append_String.
  reflexivity.
Qed.

Lemma includes_append_l (a b t : string) :
  Js.includes b t = true -> Js.includes (a +:+ b) t = true.
Proof.
  rewrite !includes_spec. intros (pre & post & ->).
  exists (a +:+ pre), post. rewrite append_assoc_s. reflexivity.
Qed.

Lemma includes_tail (c : ascii) (s t : string) :
  Js.startsWith (String c s) t = false ->
  Js.includes (String c s) t = Js.includes s t.
Proof. intros H. cbn [Js.includes]. rewrite H. reflexivity. Qed.

(** ** The asset URLs of the product service *)

Lemma replaceFirst_absent (s pat rep : string) :
  Js.includes s pat = false -> JsString.replaceFirst s pat rep = s.
Proof.
  induction s as [|c s IH]; cbn [Js.includes JsString.replaceFirst].
  - destruct (Js.startsWith "" pat); [discriminate | reflexivity].
  - destruct (Js.startsWith (String c s) pat); [discriminate|].
    intros H. rewrite IH by exact H. reflexivity.
Qed.

Lemma replaceFirst_leftmost (s pat : string) :
  Js.includes s pat = true ->
  exists pre post,
    s = pre +:+ pat +:+ post
    /\ JsString.replaceFirst s pat "" = pre +:+ post
    /\ forall pre' post', s = pre' +:+ pat +:+ post' ->
         (String.length pre <= String.length pre')%nat.
Proof.
  induction s as [|c s IH]; cbn [Js.includes JsString.replaceFirst].
  - destruct (Js.startsWith "" pat) eqn:E; [|discriminate]. intros _.
    apply startsWith_spec in E as [post E].
    destruct pat; [|discriminate]. destruct post; [|discriminate].
    exists "", "". split; [reflexivity|]. split; [reflexivity|].
    intros; cbn; lia.
  - destruct (Js.startsWith (String c s) pat) eqn:E.
    + intros _. apply startsWith_spec in E as [post E]. exists "", post.
      split; [exact E|]. split; [|intros; cbn; lia].
      rewrite E. change ("" +:+ post) with post.
      change ("" +:+ JsString.drop (String.length pat) (pat +:+ post))
        with (JsString.drop (String.length pat) (pat +:+ post)).
      apply drop_append.
    + intros H. destruct (IH H) as (pre & post & Hs & Hr & Hmin).
      exists (String c pre), post. rewrite !append_String.
      split; [congruence|]. split; [congruence|].
      intros pre' post' Heq. destruct pre' as [|c' pre'].
      * exfalso. assert (Js.startsWith (String c s) pat = true)
          by (apply startsWith_spec; eauto).
        congruence.
      * rewrite append_String in Heq. injection Heq as <- Heq.
        cbn [String.length]. specialize (Hmin pre' post' Heq). lia.
Qed.

(** X18: the asset base URL is "http://localhost:5000" when the
    environment gives none or an empty one; a configured URL without
    "/api" is used as it is, and from one with "/api" exactly the
    leftmost "/api" is cut out. *)
Theorem getAssetBaseUrl_cuts_first_api (env : option string) :
  let raw := match env with
             | Some s => if Js.truthy s then s else "http://localhost:5000"
             | None => "http://localhost:5000"
             end in
  ((env = None \/ env = Some "") ->
   ProductService.getAssetBaseUrl env = "http://localhost:5000")
  /\ (~ (exists pre post, raw = pre +:+ "/api" +:+ post) ->
      ProductService.getAssetBaseUrl env = raw)
  /\ ((exists pre post, raw = pre +:+ "/api" +:+ post) ->
      exists pre post,
        raw = pre +:+ "/api" +:+ post
        /\ ProductService.getAssetBaseUrl env = pre +:+ post
        /\ forall pre' post', raw = pre' +:+ "/api" +:+ post' ->
             (String.length pre <= String.length pre')%nat).
Proof.
  cbn zeta. unfold ProductService.getAssetBaseUrl. split; [|split].
  - intros [-> | ->]; vm_compute; reflexivity.
  - intros H. apply replaceFirst_absent. apply includes_false. exact H.
  - intros H. apply replaceFirst_leftmost. apply includes_spec. exact H.
Qed.

Lemma getAssetBaseUrl_cuts_first_api_witness :
  exists pre post,
    "https://shop.example.com/api/v1" = pre +:+ "/api" +:+ post
    /\ ProductService.getAssetBaseUrl (Some "https://shop.example.com/api/v1")
       = pre +:+ post.
Proof.
  destruct (getAssetBaseUrl_cuts_first_api
              (Some "https://shop.example.com/api/v1")) as (_ & _ & H).
  destruct H as (pre & post & Hraw & Hbase & _).
  - exists "https://shop.example.com", "/v1". reflexivity.
  - exists pre, post. split; [exact Hraw | exact Hbase].
Defined.

(** X15: the model URL is the asset base URL, "/models/" and the file
    name, whether the catalog path is written "/models/f", "models/f" or
    just "f"; a missing or empty path gives no URL. *)
Theorem getModelUrl_path_forms (env : option string) (f : string) :
  let url := Some (ProductService.getAssetBaseUrl env +:+ "/models/" +:+ f) in
  ProductService.getModelUrl env (Some ("/models/" +:+ f)) = url
  /\ ProductService.getModelUrl env (Some ("models/" +:+ f)) = url
  /\ (f <> "" -> Js.startsWith f "/" = false ->
      Js.startsWith f "models/" = false ->
      ProductService.getModelUrl env (Some f) = url)
  /\ ProductService.getModelUrl env None = None
  /\ ProductService.getModelUrl env (Some "") = None.
Proof.
  cbn zeta.
  assert (T1 : Js.truthy ("/models/" +:+ f) = true) by (apply truthy_spec; discriminate).
  assert (T2 : Js.truthy ("models/" +:+ f) = true) by (apply truthy_spec; discriminate).
  assert (E1 : Js.startsWith ("/models/" +:+ f) "/" = true)
    by (apply startsWith_spec; exists ("models/" +:+ f); reflexivity).
  assert (E2 : JsString.drop 1 ("/models/" +:+ f) = "models/" +:+ f) by reflexivity.
  assert (E3 : Js.startsWith ("models/" +:+ f) "models/" = true)
    by (apply startsWith_spec; eauto).
  assert (E4 : JsString.drop 7 ("models/" +:+ f) = f)
    by (apply (drop_append "models/" f)).
  assert (E5 : Js.startsWith ("models/" +:+ f) "/" = false) by reflexivity.
  split; [unfold ProductService.getModelUrl; rewrite T1, E1, E2, E3, E4; reflexivity|].
  split; [unfold ProductService.getModelUrl; rewrite T2, E5, E3, E4; reflexivity|].
  split; [|split; reflexivity].
  intros Hne H1 H2. unfold ProductService.getModelUrl.
  rewrite (proj2 (truthy_spec f) Hne), H1, H2. reflexivity.
Qed.

Lemma getModelUrl_path_forms_witness :
  ProductService.getModelUrl None (Some "office_chair_modern.glb")
  = ProductService.getModelUrl None (Some "/models/office_chair_modern.glb").
Proof.
  destruct (getModelUrl_path_forms None "office_chair_modern.glb")
    as (H1 & _ & H3 & _).
  assert (Hne : "office_chair_modern.glb" <> "") by discriminate.
  exact (eq_trans (H3 Hne eq_refl eq_refl) (eq_sym H1)).
Defined.

(** X17: an image path that starts with "http" is returned as it is; any
    other is the asset base URL, "/images/" and the file name, whether it
    is written "/images/f" or "images/f"; a missing or empty path gives no
    URL. *)
Theorem getImageUrl_path_forms (env : option string) (f p : string) :
  let url := Some (ProductService.getAssetBaseUrl env +:+ "/images/" +:+ f) in
  (Js.startsWith p "http" = true ->
   ProductService.getImageUrl env (Some p) = Some p)
  /\ ProductService.getImageUrl env (Some ("/images/" +:+ f)) = url
  /\ ProductService.getImageUrl env (Some ("images/" +:+ f)) = url
  /\ ProductService.getImageUrl env None = None
  /\ ProductService.getImageUrl env (Some "") = None.
Proof.
  cbn zeta.
  assert (T1 : Js.truthy ("/images/" +:+ f) = true) by (apply truthy_spec; discriminate).
  assert (T2 : Js.truthy ("images/" +:+ f) = true) by (apply truthy_spec; discriminate).
  assert (H1 : Js.startsWith ("/images/" +:+ f) "http" = false) by reflexivity.
  assert (H2 : Js.startsWith ("images/" +:+ f) "http" = false) by reflexivity.
  assert (E1 : Js.startsWith ("/images/" +:+ f) "/" = true)
    by (apply startsWith_spec; exists ("images/" +:+ f); reflexivity).
  assert (E2 : JsString.drop 1 ("/images/" +:+ f) = "images/" +:+ f) by reflexivity.
  assert (E3 : Js.startsWith ("images/" +:+ f) "images/" = true)
    by (apply startsWith_spec; eauto).
  assert (E4 : JsString.drop 7 ("images/" +:+ f) = f)
    by (apply (drop_append "images/" f)).
  assert (E5 : Js.startsWith ("images/" +:+ f) "/" = false) by reflexivity.
  split; [|split; [|split; [|split; reflexivity]]].
  2: unfold ProductService.getImageUrl; rewrite T1, H1, E1, E2, E3, E4; reflexivity.
  2: unfold ProductService.getImageUrl; rewrite T2, H2, E5, E3, E4; reflexivity.
  intros Hp. unfold ProductService.getImageUrl.
  assert (Hne : p <> "") by (intros ->; discriminate).
  rewrite (proj2 (truthy_spec p) Hne), Hp. reflexivity.
Qed.

Lemma getImageUrl_path_forms_witness :
  ProductService.getImageUrl None (Some "https://media.example.com/chair.jpg")
  = Some "https://media.example.com/chair.jpg".
Proof.
  apply (getImageUrl_path_forms None "" "https://media.example.com/chair.jpg").
  reflexivity.
Defined.

(** ** From the catalog path to the format check *)

Lemma isSpace_lowerChar (c : ascii) :
  JsString.isSpace (Js.lowerChar c) = JsString.isSpace c.
Proof. destruct c as [[] [] [] [] [] [] [] []]; reflexivity. Qed.

Lemma toLowerCase_empty (s : string) :
  String.eqb (Js.toLowerCase s) "" = String.eqb s "".
Proof. destruct s; reflexivity. Qed.

Lemma toLowerCase_trimStart (s : string) :
  Js.toLowerCase (JsString.trimStart s) = JsString.trimStart (Js.toLowerCase s).
Proof.
  induction s as [|c s IH]; [reflexivity|].
  cbn [JsString.trimStart Js.toLowerCase]. rewrite isSpace_lowerChar.
  destruct (JsString.isSpace c); [exact IH | reflexivity].
Qed.

Lemma toLowerCase_trimEnd (s : string) :
  Js.toLowerCase (JsString.trimEnd s) = JsString.trimEnd (Js.toLowerCase s).
Proof.
  induction s as [|c s IH]; [reflexivity|].
  cbn [JsString.trimEnd Js.toLowerCase].
  rewrite isSpace_lowerChar, <- IH, toLowerCase_empty.
  destruct (JsString.isSpace c && String.eqb (JsString.trimEnd s) "");
    reflexivity.
Qed.

Lemma toLowerCase_trim (s : string) :
  Js.toLowerCase (JsString.trim s) = JsString.trim (Js.toLowerCase s).
Proof.
  unfold JsString.trim. rewrite toLowerCase_trimEnd, toLowerCase_trimStart.
  reflexivity.
Qed.

Lemma includes_trimStart (s t' : string) (c : ascii) :
  JsString.isSpace c = false ->
  Js.includes s (String c t') = true ->
  Js.includes (JsString.trimStart s) (String c t') = true.
Proof.
  intros Hc. induction s as [|a s IH]; [auto|].
  cbn [JsString.trimStart]. destruct (JsString.isSpace a) eqn:Ea; [|auto].
  cbn [Js.includes Js.startsWith].
  destruct (Ascii.eqb_spec a c) as [->|Hne]; [congruence|]. exact IH.
Qed.

Lemma startsWith_trimEnd (t s : string) :
  Forall (fun c => JsString.isSpace c = false) (list_ascii_of_string t) ->
  Js.startsWith s t = true -> Js.startsWith (JsString.trimEnd s) t = true.
Proof.
  revert s; induction t as [|c t IH]; intros s Hns Hs.
  - destruct (JsString.trimEnd s); reflexivity.
  - cbn [list_ascii_of_string] in Hns. inversion Hns as [|? ? Hc Hns']; subst.
    destruct s as [|a s]; [discriminate|].
    cbn [Js.startsWith] in Hs.
    destruct (Ascii.eqb_spec a c) as [->|]; [|discriminate].
    rewrite trimEnd_head by exact Hc. cbn [Js.startsWith].
    rewrite Ascii.eqb_refl. apply IH; assumption.
Qed.

Lemma includes_trimEnd (s t' : string) (c : ascii) :
  Forall (fun c => JsString.isSpace c = false)
         (list_ascii_of_string (String c t')) ->
  Js.includes s (String c t') = true ->
  Js.includes (JsString.trimEnd s) (String c t') = true.
Proof.
  intros Hns. induction s as [|a s IH]; [auto|].
  cbn [Js.includes].
  destruct (Js.startsWith (String a s) (String c t')) eqn:E.
  - intros _. pose proof (startsWith_trimEnd _ _ Hns E) as H.
    destruct (JsString.trimEnd (String a s)) as [|x r]; [discriminate|].
    cbn [Js.includes]. rewrite H. reflexivity.
  - intros H. specialize (IH H). cbn [JsString.trimEnd].
    destruct (String.eqb_spec (JsString.trimEnd s) "") as [Ee|Ee].
    + rewrite Ee in IH. discriminate.
    + rewrite andb_false_r. cbn [Js.includes]. rewrite IH.
      destruct (Js.startsWith (String a (JsString.trimEnd s)) (String c t'));
        reflexivity.
Qed.

Lemma includes_trim (s t' : string) (c : ascii) :
  Forall (fun c => JsString.isSpace c = false)
         (list_ascii_of_string (String c t')) ->
  Js.includes s (String c t') = true ->
  Js.includes (JsString.trim s) (String c t') = true.
Proof.
  intros Hns H. unfold JsString.trim. apply includes_trimEnd; [exact Hns|].
  apply includes_trimStart; [|exact H].
  cbn [list_ascii_of_string] in Hns. inversion Hns; assumption.
Qed.

Lemma includes_after_slash (rest t' : string) :
  Js.includes (Js.toLowerCase ("/" +:+ rest)) (String "." t') = true ->
  Js.includes (Js.toLowerCase rest) (String "." t') = true.
Proof.
  rewrite toLowerCase_append.
  change (Js.toLowerCase "/") with "/".
  change ("/" +:+ Js.toLowerCase rest) with (String "/" (Js.toLowerCase rest)).
  rewrite includes_tail by reflexivity. auto.
Qed.

Lemma includes_after_models (rest t' : string) :
  Js.includes (Js.toLowerCase ("models/" +:+ rest)) (String "." t') = true ->
  Js.includes (Js.toLowerCase rest) (String "." t') = true.
Proof.
  rewrite toLowerCase_append.
  change (Js.toLowerCase "models/") with "models/".
  change ("models/" +:+ Js.toLowerCase rest)
    with (String "m" (String "o" (String "d" (String "e" (String "l"
            (String "s" (String "/" (Js.toLowerCase rest)))))))).
  rewrite !includes_tail by reflexivity. auto.
Qed.

Lemma getModelUrl_keeps_extension env (p t' : string) :
  Js.includes (Js.toLowerCase p) (String "." t') = true ->
  exists u, ProductService.getModelUrl env (Some p) = Some u
            /\ Js.includes (Js.toLowerCase u) (String "." t') = true.
Proof.
  intros H.
  assert (Hne : p <> "") by (intros ->; discriminate).
  unfold ProductService.getModelUrl. rewrite (proj2 (truthy_spec p) Hne).
  cbn [negb]. eexists. split; [reflexivity|].
  rewrite !toLowerCase_append. do 2 apply includes_append_l.
  destruct (Js.startsWith p "/") eqn:E1.
  - apply startsWith_spec in E1 as [rest ->].
    change (JsString.drop 1 ("/" +:+ rest)) with rest.
    apply includes_after_slash in H.
    destruct (Js.startsWith rest "models/") eqn:E2; [|exact H].
    apply startsWith_spec in E2 as [rest' ->].
    replace (JsString.drop 7 ("models/" +:+ rest')) with rest'
      by (symmetry; apply (drop_append "models/" rest')).
    apply includes_after_models in H. exact H.
  - destruct (Js.startsWith p "models/") eqn:E2; [|exact H].
    apply startsWith_spec in E2 as [rest' ->].
    replace (JsString.drop 7 ("models/" +:+ rest')) with rest'
      by (symmetry; apply (drop_append "models/" rest')).
    apply includes_after_models in H. exact H.
Qed.

(** X16: for a catalog path whose lower-cased text contains ".glb" or
    ".gltf", the service builds a URL that still contains it; when the
    sanitizer lets that URL through, URL validation accepts it exactly
    when the platform parses it, and never for its format. *)
Theorem catalog_model_url_passes_format_check (env : option string)
    (p : string) :
  ((exists pre post, Js.toLowerCase p = pre +:+ ".glb" +:+ post)
   \/ (exists pre post, Js.toLowerCase p = pre +:+ ".gltf" +:+ post)) ->
  exists u,
    ProductService.getModelUrl env (Some p) = Some u
    /\ ((exists pre post, Js.toLowerCase u = pre +:+ ".glb" +:+ post)
        \/ (exists pre post, Js.toLowerCase u = pre +:+ ".gltf" +:+ post))
    /\ forall s, ModelErrors.sanitizeModelUrl (Some u) = Some s ->
         forall URL_parses,
           ModelValidation.isValid
             (ModelValidation.validateModelUrl URL_parses
                (ModelErrors.urlArg (Some s))) = URL_parses s.
Proof.
  intros Hext.
  assert (Hone : exists t', (t' = "glb" \/ t' = "gltf")
            /\ Js.includes (Js.toLowerCase p) (String "." t') = true).
  { destruct Hext as [H | H]; apply includes_spec in H; eauto. }
  destruct Hone as (t' & Ht' & Hinc).
  destruct (getModelUrl_keeps_extension env p t' Hinc) as (u & Hu & Hincu).
  exists u. split; [exact Hu|]. split.
  { destruct Ht' as [-> | ->]; [left | right]; apply includes_spec; exact Hincu. }
  intros s Hs URL_parses.
  assert (Hst : s = JsString.trim u).
  { unfold ModelErrors.sanitizeModelUrl in Hs.
    destruct (negb (Js.truthy u)); [discriminate|].
    destruct (_ || _); [discriminate|]. injection Hs as <-. reflexivity. }
  assert (Hincs : Js.includes (Js.toLowerCase s) (String "." t') = true).
  { rewrite Hst, toLowerCase_trim. apply includes_trim; [|exact Hincu].
    destruct Ht' as [-> | ->]; repeat constructor. }
  destruct s as [|a s]; [discriminate|].
  cbn [ModelErrors.urlArg ModelValidation.validateModelUrl
       ModelValidation.supportedExtensions existsb].
  assert (Hany : Js.includes (Js.toLowerCase (String a s)) ".glb"
                 || (Js.includes (Js.toLowerCase (String a s)) ".gltf" || false)
                 = true).
  { destruct Ht' as [-> | ->]; rewrite Hincs; [reflexivity|].
    rewrite orb_true_r. reflexivity. }
  rewrite Hany. cbn [negb].
  destruct (URL_parses (String a s)); reflexivity.
Qed.

Lemma catalog_model_url_passes_format_check_witness :
  exists u,
    ProductService.getModelUrl None (Some "/models/Office_Chair.GLB") = Some u
    /\ ModelValidation.isValid
         (ModelValidation.validateModelUrl (fun s => Js.startsWith s "http://")
            (ModelErrors.urlArg (Some u))) = true.
Proof.
  destruct (catalog_model_url_passes_format_check None
              "/models/Office_Chair.GLB") as (u & Hu & _ & Hvalid).
  - left. exists "/models/office_chair", "". vm_compute. reflexivity.
  - exists u. split; [exact Hu|].
    vm_compute in Hu. injection Hu as <-.
    rewrite (Hvalid "http://localhost:5000/models/Office_Chair.GLB");
      vm_compute; reflexivity.
Defined.

(** ** utils/helpers.js *)

(** X19: with [min] not above [max], [clamp] answers a number between
    them, the number itself when it already lies between them, and
    clamping twice is clamping once; with [min] above [max] it answers
    [max]. *)
Theorem clamp_bounds (num min max : Q) :
  ((min <= max)%Q ->
   (min <= Helpers.clamp num min max <= max)%Q
   /\ ((min <= num <= max)%Q -> (Helpers.clamp num min max == num)%Q)
   /\ (Helpers.clamp (Helpers.clamp num min max) min max
       == Helpers.clamp num min max)%Q)
  /\ ((max < min)%Q -> (Helpers.clamp num min max == max)%Q).
Proof.
  unfold Helpers.clamp.
  assert (Hin : forall x, (min <= x)%Q -> (x <= max)%Q ->
                          (Qmin (Qmax x min) max == x)%Q).
  { intros x H1 H2. rewrite (Q.max_l x min H1). apply Q.min_l. exact H2. }
  split.
  - intros Hmm.
    assert (Hrange : (min <= Qmin (Qmax num min) max <= max)%Q).
    { split; [|apply Q.le_min_r].
      apply Q.min_glb; [apply Q.le_max_r | exact Hmm]. }
    split; [exact Hrange|]. split.
    + intros [H1 H2]. apply Hin; assumption.
    + apply Hin; apply Hrange.
  - intros Hlt. apply Q.min_r.
    eapply Qle_trans; [apply Qlt_le_weak; exact Hlt | apply Q.le_max_r].
Qed.

Lemma clamp_bounds_witness :
  (Helpers.clamp (7 # 2) (1 # 10) 3 == 3)%Q
  /\ (Helpers.clamp 5 3 1 == 1)%Q.
Proof.
  destruct (clamp_bounds (7 # 2) (1 # 10) 3) as [H _].
  destruct (clamp_bounds 5 3 1) as [_ H'].
  split; [|apply H'; reflexivity].
  destruct H as (_ & _ & Hidem); [vm_compute; discriminate|].
  vm_compute. reflexivity.
Defined.

Lemma length_take (n : nat) (s : string) :
  String.length (JsString.take n s) = Nat.min n (String.length s).
Proof.
  revert s; induction n as [|n IH]; intros s; [reflexivity|].
  destruct s as [|c s]; [reflexivity|].
  cbn [JsString.take String.length]. rewrite IH. reflexivity.
Qed.

(** X20: [truncateText] returns a text that fits unchanged; a longer one
    it cuts so that, with the suffix, the result has exactly the maximum
    length, provided the suffix itself fits; when the suffix is longer
    than the maximum, the result is the suffix alone, longer than asked
    for.  A missing or empty text gives the empty string. *)
Theorem truncateText_length (text suffix : string) (maxLength : Z) :
  text <> "" ->
  let r := Helpers.truncateText (Some text) maxLength suffix in
  let n := Z.of_nat (String.length text) in
  let k := Z.of_nat (String.length suffix) in
  (n <= maxLength -> r = text)
  /\ (maxLength < n -> k <= maxLength ->
      r = JsString.take (Z.to_nat (maxLength - k)) text +:+ suffix
      /\ Z.of_nat (String.length r) = maxLength)
  /\ (maxLength < n -> maxLength < k ->
      r = suffix /\ maxLength < Z.of_nat (String.length r))
  /\ Helpers.truncateText None maxLength suffix = ""
  /\ Helpers.truncateText (Some "") maxLength suffix = "".
Proof.
  intros Hne. cbn zeta. unfold Helpers.truncateText.
  rewrite (proj2 (truthy_spec text) Hne). cbn [negb].
  split; [|split; [|split; [|split; reflexivity]]].
  - intros H. destruct (Z.leb_spec (Z.of_nat (String.length text)) maxLength);
      [reflexivity | lia].
  - intros H Hk.
    destruct (Z.leb_spec (Z.of_nat (String.length text)) maxLength); [lia|].
    unfold JsString.substringTo. split; [reflexivity|].
    rewrite length_append_s, length_take. lia.
  - intros H Hk.
    destruct (Z.leb_spec (Z.of_nat (String.length text)) maxLength); [lia|].
    unfold JsString.substringTo.
    replace (Z.to_nat (maxLength - Z.of_nat (String.length suffix))) with 0%nat
      by lia.
    split; [reflexivity|]. exact Hk.
Qed.

Lemma truncateText_length_witness :
  Helpers.truncateText (Some "Ergonomic office chair") 12 "..." = "Ergonomic..."
  /\ Helpers.truncateText (Some "Ergonomic office chair") 2 "..." = "...".
Proof.
  destruct (truncateText_length "Ergonomic office chair" "..." 12)
    as (_ & H1 & _); [discriminate|].
  destruct (truncateText_length "Ergonomic office chair" "..." 2)
    as (_ & _ & H2 & _); [discriminate|].
  split.
  - destruct H1 as [-> _]; [reflexivity | discriminate | reflexivity].
  - destruct H2 as [-> _]; [reflexivity | reflexivity | reflexivity].
Defined.

Lemma lowerChar_idem (c : ascii) : Js.lowerChar (Js.lowerChar c) = Js.lowerChar c.
Proof. destruct c as [[] [] [] [] [] [] [] []]; reflexivity. Qed.

Lemma upperChar_idem (c : ascii) :
  JsString.upperChar (JsString.upperChar c) = JsString.upperChar c.
Proof. destruct c as [[] [] [] [] [] [] [] []]; reflexivity. Qed.

Lemma toLowerCase_idem (s : string) :
  Js.toLowerCase (Js.toLowerCase s) = Js.toLowerCase s.
Proof.
  induction s as [|c s IH]; [reflexivity|].
  cbn [Js.toLowerCase]. rewrite lowerChar_idem, IH. reflexivity.
Qed.

Lemma length_toLowerCase (s : string) :
  String.length (Js.toLowerCase s) = String.length s.
Proof.
  induction s as [|c s IH]; [reflexivity|].
  cbn [Js.toLowerCase String.length]. rewrite IH. reflexivity.
Qed.

Lemma upperChar_ascii (c : ascii) :
  (nat_of_ascii c <? 128)%nat = true ->
  (nat_of_ascii (JsString.upperChar c) <? 128)%nat = true.
Proof. destruct c as [[] [] [] [] [] [] [] []]; intros H; exact H || reflexivity. Qed.

Lemma lowerChar_ascii (c : ascii) :
  (nat_of_ascii c <? 128)%nat = true ->
  (nat_of_ascii (Js.lowerChar c) <? 128)%nat = true.
Proof. destruct c as [[] [] [] [] [] [] [] []]; intros H; exact H || reflexivity. Qed.

Lemma toLowerCase_ascii (s : string) :
  JsString.isAscii s = true -> JsString.isAscii (Js.toLowerCase s) = true.
Proof.
  induction s as [|c s IH]; [reflexivity|].
  cbn [JsString.isAscii Js.toLowerCase]. rewrite !andb_true_iff.
  intros [Hc Hs]. split; [apply lowerChar_ascii; exact Hc | apply IH; exact Hs].
Qed.

(** X21: on a string of ASCII characters, [capitalize] answers a string of
    ASCII characters of the same length, changes nothing when applied to
    its own result, and does not depend on the letter case of its
    argument; a missing argument gives the empty string. *)
Theorem capitalize_normal_form (s : string) :
  JsString.isAscii s = true ->
  JsString.isAscii (Helpers.capitalize (Some s)) = true
  /\ String.length (Helpers.capitalize (Some s)) = String.length s
  /\ Helpers.capitalize (Some (Helpers.capitalize (Some s)))
     = Helpers.capitalize (Some s)
  /\ Helpers.capitalize (Some (Js.toLowerCase s)) = Helpers.capitalize (Some s)
  /\ Helpers.capitalize None = "".
Proof.
  destruct s as [|c s]; [repeat split; reflexivity|].
  cbn [Helpers.capitalize Js.toLowerCase String.length JsString.isAscii].
  rewrite !andb_true_iff. intros [Hc Hs].
  rewrite length_toLowerCase, upperChar_idem, toLowerCase_idem.
  split; [split; [apply upperChar_ascii; exact Hc
                 | apply toLowerCase_ascii; exact Hs]|].
  repeat split; try reflexivity.
  f_equal. destruct c as [[] [] [] [] [] [] [] []]; reflexivity.
Qed.

Lemma capitalize_normal_form_witness :
  Helpers.capitalize (Some (Helpers.capitalize (Some "wALK cYCLE")))
  = Helpers.capitalize (Some "wALK cYCLE")
  /\ Helpers.capitalize (Some "wALK cYCLE") = "Walk cycle".
Proof.
  refine (conj _ _).
  - apply (capitalize_normal_form "wALK cYCLE"). reflexivity.
  - reflexivity.
Defined.

(** ** Labels of the animation panel *)

Lemma alnum_lowerChar (c : ascii) :
  JsString.isLowerAlnum c = true -> Js.lowerChar c = c.
Proof.
  intros H; destruct c as [[] [] [] [] [] [] [] []];
    vm_compute in H; try discriminate H; reflexivity.
Qed.

Lemma alnum_not_space (c : ascii) :
  JsString.isLowerAlnum c = true -> JsString.isSpace c = false.
Proof.
  intros H; destruct c as [[] [] [] [] [] [] [] []];
    vm_compute in H; try discriminate H; reflexivity.
Qed.

Lemma alnum_spaceOut (c : ascii) :
  JsString.isLowerAlnum c = true ->
  (if Ascii.eqb c "_" || Ascii.eqb c "-" then " "%char else c) = c.
Proof.
  intros H; destruct c as [[] [] [] [] [] [] [] []];
    vm_compute in H; try discriminate H; reflexivity.
Qed.

Lemma alnum_not_dot (c : ascii) :
  JsString.isLowerAlnum c = true -> c <> "."%char.
Proof. intros H ->. vm_compute in H. discriminate. Qed.

Section AlnumStrings.

Variable r : string.
Hypothesis alnum :
  Forall (fun c => JsString.isLowerAlnum c = true) (list_ascii_of_string r).

Lemma alnum_toLowerCase : Js.toLowerCase r = r.
Proof.
  induction r as [|c s IH]; [reflexivity|].
  cbn [list_ascii_of_string] in alnum. inversion alnum as [|? ? Hc Hs]; subst.
  cbn [Js.toLowerCase]. rewrite (alnum_lowerChar c Hc), (IH Hs). reflexivity.
Qed.

Lemma alnum_spaceOut_string : JsString.spaceOut r = r.
Proof.
  induction r as [|c s IH]; [reflexivity|].
  cbn [list_ascii_of_string] in alnum. inversion alnum as [|? ? Hc Hs]; subst.
  cbn [JsString.spaceOut]. rewrite (alnum_spaceOut c Hc), (IH Hs). reflexivity.
Qed.

Lemma alnum_no_dot : Forall (fun c => c <> "."%char) (list_ascii_of_string r).
Proof.
  eapply Forall_impl; [exact alnum | intros c; apply alnum_not_dot].
Qed.

Lemma alnum_trimEnd : JsString.trimEnd r = r.
Proof.
  induction r as [|c s IH]; [reflexivity|].
  cbn [list_ascii_of_string] in alnum. inversion alnum as [|? ? Hc Hs]; subst.
  rewrite trimEnd_head by (apply alnum_not_space; exact Hc).
  rewrite (IH Hs). reflexivity.
Qed.

Lemma alnum_trimEnd_after (q : string) :
  r <> "" -> JsString.trimEnd (q +:+ r) = q +:+ r.
Proof.
  intros Hne. induction q as [|c q IH]; [apply alnum_trimEnd|].
  rewrite append_String. cbn [JsString.trimEnd]. rewrite IH.
  destruct (String.eqb_spec (q +:+ r) "") as [E|E].
  - exfalso. destruct q; [exact (Hne E) | discriminate].
  - rewrite andb_false_r. reflexivity.
Qed.

End AlnumStrings.

Lemma drop_chars (P : ascii -> Prop) (k : nat) (s : string) :
  Forall P (list_ascii_of_string s) ->
  Forall P (list_ascii_of_string (JsString.drop k s)).
Proof.
  revert s; induction k as [|k IH]; intros s H; [destruct s; exact H|].
  destruct s as [|c s]; [exact H|].
  cbn [JsString.drop]. apply IH. cbn [list_ascii_of_string] in H.
  inversion H; assumption.
Qed.

Lemma endsWith_dot_false (s t : string) :
  Forall (fun c => c <> "."%char) (list_ascii_of_string s) ->
  JsString.endsWith s (String "." t) = false.
Proof.
  intros H. unfold JsString.endsWith.
  destruct (_ <=? _)%nat; [|reflexivity]. cbn [andb].
  destruct (String.eqb_spec
              (JsString.drop (String.length s - String.length (String "." t)) s)
              (String "." t)) as [E|E]; [|reflexivity].
  pose proof (drop_chars _ (String.length s - String.length (String "." t)) s H)
    as Hd.
  rewrite E in Hd. cbn [list_ascii_of_string] in Hd.
  inversion Hd as [|? ? Hdot _]. contradiction.
Qed.

Lemma stripModelSuffix_no_dot (s : string) :
  Forall (fun c => c <> "."%char) (list_ascii_of_string (Js.toLowerCase s)) ->
  AnimationPanel.stripModelSuffix s = s.
Proof.
  intros H. unfold AnimationPanel.stripModelSuffix.
  rewrite !endsWith_dot_false by exact H. reflexivity.
Qed.

Lemma list_ascii_append (a b : string) :
  list_ascii_of_string (a +:+ b)
  = (list_ascii_of_string a ++ list_ascii_of_string b)%list.
Proof.
  induction a as [|c a IH]; [reflexivity|].
  rewrite append_String. cbn [list_ascii_of_string]. rewrite IH. reflexivity.
Qed.

Lemma spaceOut_append (a b : string) :
  JsString.spaceOut (a +:+ b) = JsString.spaceOut a +:+ JsString.spaceOut b.
Proof.
  induction a as [|c a IH]; [reflexivity|].
  rewrite append_String. cbn [JsString.spaceOut]. rewrite IH, append_String.
  reflexivity.
Qed.

(** X22: the label of a clip is never empty, and is "None" when no clip
    is given.  For a name of lower-case letters and digits: after the
    prefix "anim_" the label is the capitalized name; a name that does not
    start with "anim" is capitalized as it is; but after the prefix
    "animation_" only "anim" is taken off, so that the label of
    "animation_" followed by the name is "Ation " followed by the name. *)
Theorem formatAnimationName_labels (r : string) :
  Forall (fun c => JsString.isLowerAlnum c = true) (list_ascii_of_string r) ->
  r <> "" ->
  AnimationPanel.formatAnimationName (Some ("anim_" +:+ r))
  = Helpers.capitalize (Some r)
  /\ AnimationPanel.formatAnimationName (Some ("animation_" +:+ r))
     = "Ation " +:+ r
  /\ (Js.startsWith r "anim" = false ->
      AnimationPanel.formatAnimationName (Some r) = Helpers.capitalize (Some r))
  /\ (forall name, AnimationPanel.formatAnimationName name <> "")
  /\ AnimationPanel.formatAnimationName None = "None"
  /\ AnimationPanel.formatAnimationName (Some "") = "None".
Proof.
  intros Hal Hne.
  pose proof (alnum_toLowerCase r Hal) as Hlow.
  pose proof (alnum_spaceOut_string r Hal) as Hsp.
  pose proof (alnum_no_dot r Hal) as Hdot.
  assert (Hcap : Js.truthy (Helpers.capitalize (Some r)) = true)
    by (destruct r; [contradiction | reflexivity]).
  assert (Htrim : JsString.trim r = r).
  { unfold JsString.trim. rewrite trimStart_fixed; [apply alnum_trimEnd; exact Hal|].
    intros c s ->. cbn [list_ascii_of_string] in Hal.
    inversion Hal; subst. apply alnum_not_space. assumption. }
  assert (Hclean : JsString.trim (JsString.spaceOut
                     (AnimationPanel.stripModelSuffix r)) = r).
  { rewrite stripModelSuffix_no_dot by (rewrite Hlow; exact Hdot).
    rewrite Hsp. exact Htrim. }
  split; [|split; [|split; [|split; [|split; reflexivity]]]].
  - unfold AnimationPanel.formatAnimationName.
    assert (Hstrip : AnimationPanel.stripAnimPrefix ("anim_" +:+ r) = r).
    { unfold AnimationPanel.stripAnimPrefix.
      assert (E1 : Js.startsWith (Js.toLowerCase ("anim_" +:+ r)) "anim" = true).
      { rewrite toLowerCase_append. apply startsWith_spec.
        exists ("_" +:+ Js.toLowerCase r). reflexivity. }
      rewrite E1.
      change (JsString.drop 4 ("anim_" +:+ r)) with ("_" +:+ r).
      assert (E2 : Js.startsWith ("_" +:+ r) "_" = true)
        by (apply startsWith_spec; eauto).
      rewrite E2. reflexivity. }
    assert (T : Js.truthy ("anim_" +:+ r) = true) by (apply truthy_spec; discriminate).
    rewrite T. cbn [negb]. rewrite Hstrip, Hclean, Hcap. reflexivity.
  - unfold AnimationPanel.formatAnimationName.
    assert (Hstrip : AnimationPanel.stripAnimPrefix ("animation_" +:+ r)
                     = "ation_" +:+ r).
    { unfold AnimationPanel.stripAnimPrefix.
      assert (E1 : Js.startsWith (Js.toLowerCase ("animation_" +:+ r)) "anim"
                   = true).
      { rewrite toLowerCase_append. apply startsWith_spec.
        exists ("ation_" +:+ Js.toLowerCase r). reflexivity. }
      rewrite E1. reflexivity. }
    assert (T : Js.truthy ("animation_" +:+ r) = true)
      by (apply truthy_spec; discriminate).
    rewrite T. cbn [negb]. rewrite Hstrip.
    rewrite stripModelSuffix_no_dot.
    2:{ rewrite toLowerCase_append, Hlow, list_ascii_append.
        apply Forall_app. split; [|exact Hdot].
        repeat constructor; discriminate. }
    rewrite spaceOut_append, Hsp.
    change (JsString.spaceOut "ation_") with "ation ".
    assert (Ht : JsString.trim ("ation " +:+ r) = "ation " +:+ r).
    { unfold JsString.trim.
      change (JsString.trimStart ("ation " +:+ r)) with ("ation " +:+ r).
      apply alnum_trimEnd_after; assumption. }
    rewrite Ht.
    change (Helpers.capitalize (Some ("ation " +:+ r)))
      with ("Ation " +:+ Js.toLowerCase r).
    rewrite Hlow. reflexivity.
  - intros Hpre. unfold AnimationPanel.formatAnimationName.
    rewrite (proj2 (truthy_spec r) Hne). cbn [negb].
    unfold AnimationPanel.stripAnimPrefix. rewrite Hlow, Hpre.
    rewrite Hclean, Hcap. reflexivity.
  - clear Hal Hne Hlow Hsp Hdot Hcap Htrim Hclean.
    intros [name|]; [|discriminate].
    unfold AnimationPanel.formatAnimationName.
    destruct (Js.truthy name) eqn:E; cbn [negb]; [|discriminate].
    destruct (Js.truthy (Helpers.capitalize _)) eqn:E'.
    + apply truthy_spec. exact E'.
    + apply truthy_spec. exact E.
Qed.

Lemma formatAnimationName_labels_witness :
  AnimationPanel.formatAnimationName (Some "animation_0") = "Ation 0"
  /\ AnimationPanel.formatAnimationName (Some "anim_walk") = "Walk".
Proof.
  split.
  - apply (formatAnimationName_labels "0"); [repeat constructor | discriminate].
  - destruct (formatAnimationName_labels "walk") as (H & _);
      [repeat constructor | discriminate | exact H].
Defined.

(** ** The gallery filter *)

Lemma filter_sublist {A} (f : A -> bool) (l : list A) :
  sublist (List.filter f l) l.
Proof.
  induction l as [|a l IH]; [constructor|].
  cbn [List.filter]. destruct (f a); [apply sublist_skip | apply sublist_cons];
    exact IH.
Qed.

(** X23: the filtered products are the products, in their order, that
    have the selected category (any for "All") and, unless the search
    term is blank, contain the trimmed lower-cased term in their
    lower-cased name or category; with "All" and a blank term nothing is
    filtered out. *)
Theorem filterProducts_characterized (products : list ProductGallery.Product)
    (selectedCategory searchTerm : string) :
  let filtered :=
    ProductGallery.filterProducts products selectedCategory searchTerm in
  let term := JsString.trim (Js.toLowerCase searchTerm) in
  sublist filtered products
  /\ (forall p, p ∈ filtered <->
        p ∈ products
        /\ (selectedCategory = "All"
            \/ ProductGallery.category p = selectedCategory)
        /\ (JsString.trim searchTerm = ""
            \/ (exists pre post,
                  Js.toLowerCase (ProductGallery.name p) = pre +:+ term +:+ post)
            \/ (exists pre post,
                  Js.toLowerCase (ProductGallery.category p)
                  = pre +:+ term +:+ post)))
  /\ (selectedCategory = "All" -> JsString.trim searchTerm = "" ->
      filtered = products).
Proof.
  cbn zeta. unfold ProductGallery.filterProducts.
  cbn [Helpers.isEmpty].
  destruct (JsString.trim searchTerm) as [|c t] eqn:Et;
    cbn [String.length Nat.eqb negb].
  - split; [|split].
    + destruct (negb (String.eqb selectedCategory "All"));
        [apply filter_sublist | reflexivity].
    + intros p.
      destruct (String.eqb_spec selectedCategory "All") as [Hall|Hall];
        cbn [negb];
        rewrite ?list_elem_of_In, ?filter_In, ?String.eqb_eq; tauto.
    + intros -> _. reflexivity.
  - assert (Hne : String c t <> "") by discriminate.
    split; [|split].
    + destruct (negb (String.eqb selectedCategory "All"));
        repeat (try reflexivity; try (etransitivity; [apply filter_sublist|])).
    + intros p.
      destruct (String.eqb_spec selectedCategory "All") as [Hall|Hall];
        cbn [negb];
        rewrite ?list_elem_of_In, ?filter_In, ?orb_true_iff, ?includes_spec,
                ?String.eqb_eq; tauto.
    + intros _ H. discriminate.
Qed.

Lemma filterProducts_characterized_witness :
  let chair := {| ProductGallery.name := "Modern Office Chair";
                  ProductGallery.category := "Furniture" |} in
  let phone := {| ProductGallery.name := "Smart Phone";
                  ProductGallery.category := "Electronics" |} in
  ProductGallery.filterProducts [chair; phone] "All" "   " = [chair; phone]
  /\ ProductGallery.filterProducts [chair; phone] "All" " CHAIR " = [chair].
Proof.
  cbn zeta. split.
  - apply (filterProducts_characterized
             [{| ProductGallery.name := "Modern Office Chair";
                 ProductGallery.category := "Furniture" |};
              {| ProductGallery.name := "Smart Phone";
                 ProductGallery.category := "Electronics" |}] "All" "   ");
      reflexivity.
  - vm_compute. reflexivity.
Defined.

(** ** The clip list a load leaves *)

(** X24: a load of a model with a scene stores as available animations
    the names of the model's clips that are not empty, in loader order
    and nothing else; a model without a scene makes the handler fail. *)
Theorem load_lists_named_clips setFromObject targetSize product sc clips
    complexity (st : ProductViewer.State) :
  (exists st',
     ProductViewer.handleModelLoad setFromObject targetSize product
       {| Three.scene := Some sc; Three.animations := clips |}
       complexity st = Some st'
     /\ sublist (ProductViewer.availableAnimations st')
                (map Three.name (default [] clips))
     /\ (forall n, n ∈ ProductViewer.availableAnimations st' <->
                   n <> "" /\ n ∈ map Three.name (default [] clips)))
  /\ ProductViewer.handleModelLoad setFromObject targetSize product
       {| Three.scene := None; Three.animations := clips |} complexity st
     = None.
Proof.
  split; [|reflexivity].
  destruct (handleModelLoad_selection setFromObject targetSize product sc
              clips complexity st) as (st' & Hload & Havail & _).
  cbn zeta in Hload, Havail.
  exists st'. split; [exact Hload|]. rewrite Havail. unfold Spec.clipNames.
  split; [apply sublist_filter|].
  intros n. rewrite list_elem_of_filter. reflexivity.
Qed.
